(** * A shallow embedding of the [xmpp] package (xmpp/xmpp.go)

    Go strings are byte sequences: they are modelled as [string], whose
    characters are the 256 values of [ascii].  The network, the error
    channels, the random source and standard output live in an explicit
    [World] that every operation threads through. *)

From Stdlib Require Import Ascii String NArith.
From stdpp Require Import base decidable option list functions gmap strings.

#[local] Arguments String.append !s1 s2 : simpl nomatch.

(** ** Strings *)

Module Str.

(** [snoc s c] is [s] followed by the single byte [c]. *)
Definition snoc (s : string) (c : ascii) : string := s +:+ String c "".

Fixpoint all (p : ascii -> bool) (s : string) : bool :=
  match s with
  | "" => true
  | String c r => p c && all p r
  end.

Definition is_empty (s : string) : bool :=
  match s with "" => true | _ => false end.

(** [cut c s]: the text before and after the first [c] in [s]
    (strings.Cut with a one-byte separator). *)
Fixpoint cut (c : ascii) (s : string) : option (string * string) :=
  match s with
  | "" => None
  | String x r =>
      if bool_decide (x = c) then Some ("", r)
      else match cut c r with
           | Some (a, b) => Some (String x a, b)
           | None => None
           end
  end.

Fixpoint count (c : ascii) (s : string) : nat :=
  match s with
  | "" => 0
  | String x r => (if bool_decide (x = c) then 1 else 0) + count c r
  end.

Fixpoint take (n : nat) (s : string) : string :=
  match n, s with
  | S n', String c r => String c (take n' r)
  | _, _ => ""
  end.

Fixpoint drop (n : nat) (s : string) : string :=
  match n, s with
  | S n', String _ r => drop n' r
  | _, _ => s
  end.

Fixpoint replicate (n : nat) (c : ascii) : string :=
  match n with
  | 0 => ""
  | S n' => String c (replicate n' c)
  end.

End Str.

(** ** fmt: the verbs the package uses *)

Module fmt.

Definition hexdigit (n : N) : ascii :=
  ascii_of_N (if (n <? 10)%N then 48 + n else 87 + n)%N.

(** [%x] on a string or byte slice: two lower-case hex digits per byte. *)
Fixpoint hex (s : string) : string :=
  match s with
  | "" => ""
  | String c r =>
      let n := N_of_ascii c in
      String (hexdigit (n / 16)) (String (hexdigit (n mod 16)) (hex r))
  end.

(** Arguments left over once the format is exhausted. *)
Fixpoint extra_args (args : list string) : string :=
  match args with
  | [] => ""
  | [a] => "string=" +:+ a
  | a :: r => "string=" +:+ a +:+ ", " +:+ extra_args r
  end.

(** fmt.Sprintf on string operands, for the verbs the package uses: [%s]
    copies the operand, [%x] prints it in hexadecimal, [%%] is a percent
    sign.  A verb with no operand left prints [%!v(MISSING)] and operands
    left over are reported after the text, as Go does.  The other verbs
    are not modelled one by one: they get the text Go prints for a verb
    that does not apply to a string.  [verb] is set while the byte after a
    percent sign is awaited. *)
Fixpoint doPrintf (verb : bool) (format : string) (args : list string) : string :=
  match format with
  | "" =>
      (if verb then "%!(NOVERB)" else "") +:+
      match args with
      | [] => ""
      | _ => "%!(EXTRA " +:+ extra_args args +:+ ")"
      end
  | String c rest =>
      if verb then
        if bool_decide (c = "%"%char) then String c (doPrintf false rest args)
        else
          match args with
          | [] => "%!" +:+ String c "(MISSING)" +:+ doPrintf false rest []
          | a :: args' =>
              (if bool_decide (c = "s"%char) then a
               else if bool_decide (c = "x"%char) then hex a
               else "%!" +:+ String c "(string=" +:+ a +:+ ")")
              +:+ doPrintf false rest args'
          end
      else if bool_decide (c = "%"%char) then doPrintf true rest args
      else String c (doPrintf false rest args)
  end.

Definition Sprintf (format : string) (args : list string) : string :=
  doPrintf false format args.

End fmt.

(** ** html.EscapeString *)

Module html.

(** The five replacements of the package-level replacer of Go's [html]. *)
Definition escape_byte (c : ascii) : string :=
  if bool_decide (c = "&"%char) then "&amp;"
  else if bool_decide (c = "'"%char) then "&#39;"
  else if bool_decide (c = "<"%char) then "&lt;"
  else if bool_decide (c = ">"%char) then "&gt;"
  else if bool_decide (c = "034"%char) then "&#34;"
  else String c "".

Fixpoint EscapeString (s : string) : string :=
  match s with
  | "" => ""
  | String c r => escape_byte c +:+ EscapeString r
  end.

(** Text without angle brackets and quotes of either kind. *)
Definition noMarkup (s : string) : bool :=
  Str.all (fun c => negb (bool_decide (c = "<"%char))
                    && negb (bool_decide (c = ">"%char))
                    && negb (bool_decide (c = "'"%char))
                    && negb (bool_decide (c = "034"%char))) s.

End html.

(** ** encoding/xml: names, tokens and a tokenizer for the stanza subset *)

Module xml.

(** xml.Name, xml.Attr, xml.StartElement *)
Record Name := mkName { Space : string; Local : string }.
Record Attr := mkAttr { AttrName : Name; Value : string }.
Record StartElement := mkStart { ElemName : Name; ElemAttr : list Attr }.

(** xml.Token: the six kinds of token a decoder hands out. *)
Inductive Token :=
| TStart (e : StartElement)
| TEnd (n : Name)
| TCharData (s : string)
| TComment (s : string)
| TProcInst (target inst : string)
| TDirective (s : string).

#[global] Instance Name_eq_dec : EqDecision Name.
Proof. solve_decision. Defined.
#[global] Instance Attr_eq_dec : EqDecision Attr.
Proof. solve_decision. Defined.
#[global] Instance StartElement_eq_dec : EqDecision StartElement.
Proof. solve_decision. Defined.
#[global] Instance Token_eq_dec : EqDecision Token.
Proof. solve_decision. Defined.

(** The zero value of a StartElement. *)
Definition zeroStart : StartElement := mkStart (mkName "" "") [].

Definition isStart (t : Token) : bool :=
  match t with TStart _ => true | _ => false end.

(** *** Character classes *)

Definition between (lo hi : N) (c : ascii) : bool :=
  let n := N_of_ascii c in ((lo <=? n) && (n <=? hi))%N.

Definition isLetter (c : ascii) : bool := between 65 90 c || between 97 122 c.
Definition isDigit (c : ascii) : bool := between 48 57 c.
Definition isHexDigit (c : ascii) : bool :=
  isDigit c || between 65 70 c || between 97 102 c.

Definition isNameStart (c : ascii) : bool :=
  isLetter c || bool_decide (c = "_"%char) || bool_decide (c = ":"%char).

Definition isNameByte (c : ascii) : bool :=
  isNameStart c || isDigit c || bool_decide (c = "."%char) || bool_decide (c = "-"%char).

Definition isSpace (c : ascii) : bool :=
  bool_decide (c = " "%char) || between 9 10 c || between 13 13 c.

(** *** Qualified names (the decoder's nsname) *)

Definition nsname (s : string) : option Name :=
  if bool_decide (1 < Str.count ":" s) then None
  else match Str.cut ":" s with
       | Some (space, local) =>
           if Str.is_empty space || Str.is_empty local then Some (mkName "" s)
           else Some (mkName space local)
       | None => Some (mkName "" s)
       end.

(** *** References *)

Definition digitVal (c : ascii) : N :=
  let n := N_of_ascii c in
  if isDigit c then n - 48
  else if between 97 102 c then n - 87
  else n - 55.

Fixpoint parseNum (base : N) (acc : N) (s : string) : N :=
  match s with
  | "" => acc
  | String c r => parseNum base (acc * base + digitVal c) r
  end.

Definition byte (n : N) : ascii := ascii_of_N n.

(** string(rune(n)): the UTF-8 encoding of a code point; a surrogate
    becomes U+FFFD. *)
Definition encodeRune (n : N) : string :=
  (if n <? 128 then String (byte n) ""
   else if n <? 2048 then
     String (byte (192 + n / 64)) (String (byte (128 + n mod 64)) "")
   else if (55296 <=? n) && (n <=? 57343) then
     String (byte 239) (String (byte 191) (String (byte 189) ""))
   else if n <? 65536 then
     String (byte (224 + n / 4096))
       (String (byte (128 + (n / 64) mod 64)) (String (byte (128 + n mod 64)) ""))
   else
     String (byte (240 + n / 262144))
       (String (byte (128 + (n / 4096) mod 64))
          (String (byte (128 + (n / 64) mod 64)) (String (byte (128 + n mod 64)) ""))))%N.

Definition maxRune : N := 1114111.

(** The Char production of XML 1.0, which is also the character range
    encoding/xml checks decoded text against. *)
Definition isChar (n : N) : bool :=
  ((n =? 9) || (n =? 10) || (n =? 13)
   || ((32 <=? n) && (n <=? 55295))
   || ((57344 <=? n) && (n <=? 65533))
   || ((65536 <=? n) && (n <=? maxRune)))%N.

(** The text a reference [&ref;] stands for: the five predefined entities
    and decimal or hexadecimal character references to legal characters. *)
Definition decodeRef (ref : string) : option string :=
  match ref with
  | String "#" (String "x" ds) =>
      if negb (Str.is_empty ds) && Str.all isHexDigit ds
         && isChar (parseNum 16 0 ds)
      then Some (encodeRune (parseNum 16 0 ds)) else None
  | String "#" ds =>
      if negb (Str.is_empty ds) && Str.all isDigit ds
         && isChar (parseNum 10 0 ds)
      then Some (encodeRune (parseNum 10 0 ds)) else None
  | _ =>
      if bool_decide (ref = "lt") then Some "<"
      else if bool_decide (ref = "gt") then Some ">"
      else if bool_decide (ref = "amp") then Some "&"
      else if bool_decide (ref = "apos") then Some "'"
      else if bool_decide (ref = "quot") then Some (String "034" "")
      else None
  end.

(** *** Legal input

    Before any markup is read, the bytes of a fragment must be the UTF-8
    encoding of legal characters, and the three bytes that close a CDATA
    section must not occur outside one. *)

(** Where a UTF-8 sequence stands: at a character boundary, or inside a
    sequence with the bytes still due.  Overlong forms, surrogates, code
    points above U+10FFFF and U+FFFE, U+FFFF have no path through. *)
Inductive utf8 :=
| Boundary
| Tail1 | Tail2 | Tail3
| AfterE0 | AfterED | AfterEF | AfterEFBF | AfterF0 | AfterF4.

Definition ustep (u : utf8) (c : ascii) : option utf8 :=
  let n := N_of_ascii c in
  match u with
  | Boundary =>
      if (n <? 128)%N then (if isChar n then Some Boundary else None)
      else if (n <? 194)%N then None
      else if (n <? 224)%N then Some Tail1
      else if (n =? 224)%N then Some AfterE0
      else if (n =? 237)%N then Some AfterED
      else if (n =? 239)%N then Some AfterEF
      else if (n <? 240)%N then Some Tail2
      else if (n =? 240)%N then Some AfterF0
      else if (n <? 244)%N then Some Tail3
      else if (n =? 244)%N then Some AfterF4
      else None
  | Tail1 => if between 128 191 c then Some Boundary else None
  | Tail2 => if between 128 191 c then Some Tail1 else None
  | Tail3 => if between 128 191 c then Some Tail2 else None
  | AfterE0 => if between 160 191 c then Some Tail1 else None
  | AfterED => if between 128 159 c then Some Tail1 else None
  | AfterEF =>
      if between 128 190 c then Some Tail1
      else if (n =? 191)%N then Some AfterEFBF
      else None
  | AfterEFBF => if between 128 189 c then Some Boundary else None
  | AfterF0 => if between 144 191 c then Some Tail2 else None
  | AfterF4 => if between 128 143 c then Some Tail2 else None
  end.

Fixpoint uscan (u : utf8) (s : string) : option utf8 :=
  match s with
  | "" => Some u
  | String c r => u' ← ustep u c; uscan u' r
  end.

(** The bytes are whole UTF-8 sequences of legal characters. *)
Definition validChars (s : string) : bool :=
  match uscan Boundary s with
  | Some Boundary => true
  | _ => false
  end.

(** How many closing square brackets stand right before the next byte,
    counted up to two. *)
Definition bracket (n : nat) (c : ascii) : nat :=
  if bool_decide (c = "]"%char) then Nat.min 2 (S n) else 0.

Definition bstep (n : nat) (c : ascii) : option nat :=
  if bool_decide (c = ">"%char) && bool_decide (n = 2) then None
  else Some (bracket n c).

Fixpoint bscan (n : nat) (s : string) : option nat :=
  match s with
  | "" => Some n
  | String c r => n' ← bstep n c; bscan n' r
  end.

(** The text holds no two closing square brackets followed by a closing
    angle bracket. *)
Definition noCDataEnd (s : string) : bool :=
  match bscan 0 s with
  | Some _ => true
  | None => false
  end.

Definition legal (s : string) : bool := validChars s && noCDataEnd s.

(** *** Line ends

    A carriage return, alone or followed by a line feed, is read as one
    line feed.  [afterCR] says that the byte before was a carriage
    return. *)
Fixpoint normalize (afterCR : bool) (s : string) : string :=
  match s with
  | "" => ""
  | String c r =>
      if bool_decide (c = "013"%char) then String "010" (normalize true r)
      else if bool_decide (c = "010"%char) && afterCR then normalize false r
      else String c (normalize false r)
  end.

Definition normalizeLines (s : string) : string := normalize false s.

Definition noCR (s : string) : bool :=
  Str.all (fun c => negb (bool_decide (c = "013"%char))) s.

Definition noGt (s : string) : bool :=
  Str.all (fun c => negb (bool_decide (c = ">"%char))) s.

(** *** The tokenizer

    A byte-at-a-time scanner for the part of XML the stanza templates
    use: start tags with quoted attributes, end tags, empty-element tags
    and character data with references.  It accepts a fragment only where
    XML 1.0 and encoding/xml read it alike, and refuses the rest: comments,
    processing instructions, CDATA sections and directives; names with
    bytes outside ASCII; attributes not set apart by white space or given
    twice; a tab or a line end inside an attribute value, which the one
    turns into a space and the other keeps; the CDATA end outside a
    section, also between quotes. *)

Inductive mode :=
| InText (txt : string)
| InTextRef (txt ref : string)
| AfterLt
| InStartName (n : string)
| InTag (n : Name) (attrs : list Attr)
| InAttrName (n : Name) (attrs : list Attr) (an : string)
| AfterAttrName (n : Name) (attrs : list Attr) (an : Name)
| AfterEq (n : Name) (attrs : list Attr) (an : Name)
| InAttrValue (n : Name) (attrs : list Attr) (an : Name) (q : ascii) (v : string)
| InAttrRef (n : Name) (attrs : list Attr) (an : Name) (q : ascii) (v ref : string)
| AfterAttrValue (n : Name) (attrs : list Attr)
| AfterSlash (n : Name) (attrs : list Attr)
| AfterLtSlash
| InEndName (n : string)
| AfterEndName (n : Name).

Record lexer := mkLexer { lexMode : mode; lexOut : list Token }.

Definition isQuote (c : ascii) : bool :=
  bool_decide (c = "'"%char) || bool_decide (c = "034"%char).

(** A tab, a line feed or a carriage return. *)
Definition isLineSpace (c : ascii) : bool := between 9 10 c || between 13 13 c.

(** A control character: a byte below 32. *)
Definition isControl (c : ascii) : bool := (N_of_ascii c <? 32)%N.

Definition noControl (s : string) : bool :=
  Str.all (fun c => negb (isControl c)) s.

(** A string in which no byte ends the quotes [q] or starts markup, and
    which holds no tab or line end. *)
Definition attrSafe (q : ascii) (v : string) : bool :=
  Str.all (fun c => negb (bool_decide (c = q)) && negb (bool_decide (c = "<"%char))
                    && negb (bool_decide (c = "&"%char)) && negb (isLineSpace c)) v.

(** A string that stands for itself between quotes [q]: legal
    characters, and no byte that would have to be escaped. *)
Definition plainAttr (q : ascii) (v : string) : bool :=
  attrSafe q v && validChars v && noCDataEnd v.

Definition isRefByte (c : ascii) : bool :=
  isLetter c || isDigit c || bool_decide (c = "#"%char).

(** Character data is reported only when there is some. *)
Definition flushText (txt : string) (out : list Token) : list Token :=
  if Str.is_empty txt then out else out ++ [TCharData txt].

(** A start tag is complete: attribute names must be distinct. *)
Definition emitStart (n : Name) (attrs : list Attr) (empty : bool)
    (out : list Token) : option lexer :=
  if bool_decide (NoDup (AttrName <$> attrs)) then
    Some (mkLexer (InText "")
            (out ++ TStart (mkStart n attrs) :: (if empty then [TEnd n] else [])))
  else None.

Definition step (l : lexer) (c : ascii) : option lexer :=
  let out := lexOut l in
  match lexMode l with
  | InText txt =>
      if bool_decide (c = "<"%char) then Some (mkLexer AfterLt (flushText txt out))
      else if bool_decide (c = "&"%char) then Some (mkLexer (InTextRef txt "") out)
      else Some (mkLexer (InText (Str.snoc txt c)) out)
  | InTextRef txt ref =>
      if bool_decide (c = ";"%char) then
        s ← decodeRef ref; Some (mkLexer (InText (txt +:+ s)) out)
      else if isRefByte c then Some (mkLexer (InTextRef txt (Str.snoc ref c)) out)
      else None
  | AfterLt =>
      if bool_decide (c = "/"%char) then Some (mkLexer AfterLtSlash out)
      else if isNameStart c then Some (mkLexer (InStartName (String c "")) out)
      else None
  | InStartName n =>
      if isNameByte c then Some (mkLexer (InStartName (Str.snoc n c)) out)
      else
        nm ← nsname n;
        if isSpace c then Some (mkLexer (InTag nm []) out)
        else if bool_decide (c = ">"%char) then emitStart nm [] false out
        else if bool_decide (c = "/"%char) then Some (mkLexer (AfterSlash nm []) out)
        else None
  | InTag n attrs =>
      if isSpace c then Some l
      else if bool_decide (c = ">"%char) then emitStart n attrs false out
      else if bool_decide (c = "/"%char) then Some (mkLexer (AfterSlash n attrs) out)
      else if isNameStart c then Some (mkLexer (InAttrName n attrs (String c "")) out)
      else None
  | InAttrName n attrs an =>
      if isNameByte c then Some (mkLexer (InAttrName n attrs (Str.snoc an c)) out)
      else
        anm ← nsname an;
        if bool_decide (c = "="%char) then Some (mkLexer (AfterEq n attrs anm) out)
        else if isSpace c then Some (mkLexer (AfterAttrName n attrs anm) out)
        else None
  | AfterAttrName n attrs an =>
      if isSpace c then Some l
      else if bool_decide (c = "="%char) then Some (mkLexer (AfterEq n attrs an) out)
      else None
  | AfterEq n attrs an =>
      if isSpace c then Some l
      else if isQuote c then Some (mkLexer (InAttrValue n attrs an c "") out)
      else None
  | InAttrValue n attrs an q v =>
      if bool_decide (c = q) then
        Some (mkLexer (AfterAttrValue n (attrs ++ [mkAttr an v])) out)
      else if bool_decide (c = "<"%char) then None
      else if isLineSpace c then None
      else if bool_decide (c = "&"%char) then
        Some (mkLexer (InAttrRef n attrs an q v "") out)
      else Some (mkLexer (InAttrValue n attrs an q (Str.snoc v c)) out)
  | InAttrRef n attrs an q v ref =>
      if bool_decide (c = ";"%char) then
        s ← decodeRef ref; Some (mkLexer (InAttrValue n attrs an q (v +:+ s)) out)
      else if isRefByte c then
        Some (mkLexer (InAttrRef n attrs an q v (Str.snoc ref c)) out)
      else None
  | AfterAttrValue n attrs =>
      if isSpace c then Some (mkLexer (InTag n attrs) out)
      else if bool_decide (c = ">"%char) then emitStart n attrs false out
      else if bool_decide (c = "/"%char) then Some (mkLexer (AfterSlash n attrs) out)
      else None
  | AfterSlash n attrs =>
      if bool_decide (c = ">"%char) then emitStart n attrs true out else None
  | AfterLtSlash =>
      if isNameStart c then Some (mkLexer (InEndName (String c "")) out) else None
  | InEndName n =>
      if isNameByte c then Some (mkLexer (InEndName (Str.snoc n c)) out)
      else
        nm ← nsname n;
        if isSpace c then Some (mkLexer (AfterEndName nm) out)
        else if bool_decide (c = ">"%char) then
          Some (mkLexer (InText "") (out ++ [TEnd nm]))
        else None
  | AfterEndName n =>
      if isSpace c then Some l
      else if bool_decide (c = ">"%char) then
        Some (mkLexer (InText "") (out ++ [TEnd n]))
      else None
  end.

Fixpoint run (l : lexer) (s : string) : option lexer :=
  match s with
  | "" => Some l
  | String c r => l' ← step l c; run l' r
  end.

(** The input may only end in character data. *)
Definition finish (l : lexer) : option (list Token) :=
  match lexMode l with
  | InText txt => Some (flushText txt (lexOut l))
  | _ => None
  end.

(** The markup of input that is legal and has its line ends normalised. *)
Definition markup (s : string) : option (list Token) :=
  l ← run (mkLexer (InText "") []) s; finish l.

(** The tokens of a whole fragment, or [None] on a syntax error. *)
Definition tokens (s : string) : option (list Token) :=
  if legal s then markup (normalizeLines s) else None.

(** Character data alone, decoded: the text an element body stands for. *)
Definition decodeText (s : string) : option string :=
  if legal s then
    l ← run (mkLexer (InText "") []) (normalizeLines s);
    match lexMode l, lexOut l with
    | InText txt, [] => Some txt
    | _, _ => None
    end
  else None.

(** *** Nesting *)

(** [closes open ts]: the tokens [ts] close the open elements [open]
    (innermost first), each end tag matching the innermost open element,
    and the outermost one is closed by the very last token. *)
Fixpoint closes (open : list Name) (ts : list Token) : bool :=
  match ts with
  | [] => false
  | TStart e :: r => closes (ElemName e :: open) r
  | TEnd n :: r =>
      match open with
      | [] => false
      | [m] => bool_decide (m = n) && bool_decide (r = [])
      | m :: open' => bool_decide (m = n) && closes open' r
      end
  | _ :: r => closes open r
  end.

(** One element: a start tag, its content, and its own end tag last. *)
Definition isElement (ts : list Token) : bool :=
  match ts with
  | TStart e :: r => closes [ElemName e] r
  | _ => false
  end.

(** A fragment is a well-formed element when it tokenizes to one. *)
Definition wellFormedElement (s : string) : bool :=
  match tokens s with
  | Some ts => isElement ts
  | None => false
  end.

(** A fragment is a well-formed start tag when it is exactly one. *)
Definition startTag (s : string) : option StartElement :=
  match tokens s with
  | Some [TStart e] => Some e
  | _ => None
  end.

End xml.

(** ** The environment: errors, transports, channels *)

(** A Go error value, as far as this package looks at it: its message. *)
Inductive error := errors_New (text : string).

Definition Error (e : error) : string :=
  match e with errors_New text => text end.

#[global] Instance error_eq_dec : EqDecision error.
Proof. solve_decision. Defined.

Module io.
Definition EOF : error := errors_New "EOF".
Definition ErrUnexpectedEOF : error := errors_New "unexpected EOF".
End io.

(** The values a [net.Conn] interface holds here: nil, a TCP socket
    returned by net.Dial, or the client returned by tls.Client, which wraps
    another connection and carries the ServerName of its configuration. *)
Inductive netConn :=
| nilConn
| tcpConn (fd : nat) (address : string)
| tlsClient (under : netConn) (ServerName : string).

#[global] Instance netConn_eq_dec : EqDecision netConn.
Proof. solve_decision. Defined.

(** A connection can carry bytes when a socket lies under its TLS layers. *)
Fixpoint hasSocket (c : netConn) : bool :=
  match c with
  | nilConn => false
  | tcpConn _ _ => true
  | tlsClient under _ => hasSocket under
  end.

(** The state of one [chan error]: capacity, buffered values, whether it
    was closed, how many receivers are parked on it, and the values handed
    to receivers so far. *)
Record chanState := mkChan {
  chCap : nat;
  chBuf : list error;
  chClosed : bool;
  chRecvq : nat;
  chTaken : list error
}.

(** Everything outside the connection object. *)
Record World := mkWorld {
  wire : list (netConn * string);            (* writes accepted, oldest first *)
  writeFault : netConn -> option error;       (* transports whose Write fails *)
  feed : netConn -> list xml.Token * error;   (* what a decoder reading a
                                                 transport gets: tokens, then
                                                 an error for good *)
  dialFault : string -> string -> option error; (* network, address *)
  nextFd : nat;
  chans : nat -> chanState;
  entropy : string;                           (* bytes crypto/rand still has *)
  stdout : string
}.

Definition setWire (x : list (netConn * string)) (w : World) : World :=
  mkWorld x (writeFault w) (feed w) (dialFault w) (nextFd w) (chans w)
    (entropy w) (stdout w).

Definition setNextFd (x : nat) (w : World) : World :=
  mkWorld (wire w) (writeFault w) (feed w) (dialFault w) x (chans w)
    (entropy w) (stdout w).

Definition setChans (x : nat -> chanState) (w : World) : World :=
  mkWorld (wire w) (writeFault w) (feed w) (dialFault w) (nextFd w) x
    (entropy w) (stdout w).

Definition setEntropy (x out : string) (w : World) : World :=
  mkWorld (wire w) (writeFault w) (feed w) (dialFault w) (nextFd w) (chans w)
    x out.

(** Why a goroutine is parked on a send. *)
Inductive parked :=
| onNilChannel                 (* nobody can ever wake it *)
| onFullChannel (ch : nat).    (* until some goroutine receives from [ch] *)

(** How a call ends. *)
Inductive outcome (A : Type) :=
| Returns (a : A) (w : World)
| Blocks (why : parked) (w : World)
| Panics (w : World).
Arguments Returns {A} a w.
Arguments Blocks {A} why w.
Arguments Panics {A} w.

Definition M (A : Type) : Type := World -> outcome A.

Definition ret {A} (a : A) : M A := fun w => Returns a w.

Definition bind {A B} (m : M A) (k : A -> M B) : M B :=
  fun w =>
    match m w with
    | Returns a w' => k a w'
    | Blocks why w' => Blocks why w'
    | Panics w' => Panics w'
    end.

Notation "x <- m ;; k" := (bind m (fun x => k))
  (at level 100, m at next level, right associativity).
Notation "m ;; k" := (bind m (fun _ => k))
  (at level 100, right associativity).

(** [ch <- e] *)
Definition send (ch : option nat) (e : error) : M unit :=
  fun w =>
    match ch with
    | None => Blocks onNilChannel w
    | Some i =>
        let c := chans w i in
        if chClosed c then Panics w
        else if bool_decide (0 < chRecvq c) then
          Returns tt (setChans (<[i := mkChan (chCap c) (chBuf c) false
                                       (pred (chRecvq c)) (chTaken c ++ [e])]>
                                  (chans w)) w)
        else if bool_decide (length (chBuf c) < chCap c) then
          Returns tt (setChans (<[i := mkChan (chCap c) (chBuf c ++ [e]) false
                                       (chRecvq c) (chTaken c)]>
                                  (chans w)) w)
        else Blocks (onFullChannel i) w
    end.

(** Write on a [net.Conn]: the transport takes all of the text or fails;
    a nil connection, bare or under TLS, is a nil dereference. *)
Definition Write (out : netConn) (s : string) : M (nat * option error) :=
  fun w =>
    if hasSocket out then
      match writeFault w out with
      | Some e => Returns (0, Some e) w
      | None => Returns (String.length s, None) (setWire (wire w ++ [(out, s)]) w)
      end
    else Panics w.

(** fmt.Fprintf: the text is formatted, then written in a single Write. *)
Definition Fprintf (out : netConn) (format : string) (args : list string)
    : M (nat * option error) :=
  Write out (fmt.Sprintf format args).

(** io.ReadFull(rand.Reader, b) for a fresh 8-byte [b]: the bytes left in
    [b] and the error. *)
Definition readRandom (w : World) : (string * option error) * World :=
  let got := Str.take 8 (entropy w) in
  let n := String.length got in
  let b := got +:+ Str.replicate (8 - n) (ascii_of_N 0) in
  let err := if bool_decide (n = 8) then None
             else if bool_decide (n = 0) then Some io.EOF
             else Some io.ErrUnexpectedEOF in
  ((b, err), setEntropy (Str.drop 8 (entropy w)) (stdout w) w).

(** ** The package *)

Module xmpp.

Definition NsJabberClient := "jabber:client".
Definition NsStream := "http://etherx.jabber.org/streams".
Definition NsIqAuth := "jabber:iq:auth".
Definition NsIqRoster := "jabber:iq:roster".
Definition NsTLS := "urn:ietf:params:xml:ns:xmpp-tls".
Definition NsDisco := "http://jabber.org/protocol/disco#items".
Definition NsMuc := "http://jabber.org/protocol/muc".

Definition xmlStream :=
  "<stream:stream from='%s' to='%s' version='1.0' xml:lang='en' xmlns='%s' xmlns:stream='%s'>".
Definition xmlStartTLS := "<starttls xmlns='%s'/>".
Definition xmlIqSet :=
  "<iq type='set' id='%s'><query xmlns='%s'><username>%s</username><password>%s</password><resource>%s</resource></query></iq>".
Definition xmlIqGet := "<iq from='%s' to='%s' id='%s' type='get'><query xmlns='%s'/></iq>".
Definition xmlPresence := "<presence from='%s'><show>%s</show></presence>".
Definition xmlMUCPart := "<presence to='%s' type='unavailable'></presence>".
Definition xmlMUCPresence := "<presence id='%s' to='%s' from='%s'><x xmlns='%s'/></presence>".
Definition xmlMUCMessage :=
  "<message from='%s' id='%s' to='%s' type='%s'><body>%s</body></message>".

(** The decoded structures.  Fields that share a name with a method carry
    the initial of their struct; the StartTLS field is a pointer, nil when
    the element is absent. *)
Record features := mkFeatures {
  fXMLName : xml.Name;
  fStartTLS : option unit;
  fMechanisms : list string
}.

Record item := mkItem {
  Email : string;
  Jid : string;
  LastActive : string;
  MentionName : string;
  Name : string;
  NumParticipants : string;
  Owner : string;
  Privacy : string;
  RoomId : string;
  Topic : string
}.

Record query := mkQuery { qXMLName : xml.Name; Items : list item }.

Record body := mkBody { bBody : string }.

Definition zeroFeatures : features := mkFeatures (xml.mkName "" "") None [].
Definition zeroQuery : query := mkQuery (xml.mkName "" "") [].
Definition zeroBody : body := mkBody "".

(** An [*xml.Decoder]: the reader it was created on, and what that
    reader will still deliver. *)
Record Decoder := mkDecoder {
  decSource : netConn;
  decPending : list xml.Token;
  decErr : error
}.

(** xml.NewDecoder(r) *)
Definition NewDecoder (r : netConn) (w : World) : Decoder :=
  mkDecoder r (fst (feed w r)) (snd (feed w r)).

(** d.Token(): the next token, or the error the stream ends with. *)
Definition Token (d : Decoder) : (option xml.Token * option error) * Decoder :=
  match decPending d with
  | t :: rest => ((Some t, None), mkDecoder (decSource d) rest (decErr d))
  | [] => ((None, Some (decErr d)), d)
  end.

(** What d.unmarshal does with a start element in hand is the library's
    reflection over struct tags; a target type brings it along. *)
Class Unmarshaler (T : Type) :=
  unmarshal : T -> xml.StartElement -> Decoder -> (T * option error) * Decoder.

(** d.DecodeElement(v, nil): tokens are read up to the first start
    element, which is then unmarshalled into [v]. *)
Fixpoint decodeFrom {T} `{Unmarshaler T} (v : T) (src : netConn)
    (pending : list xml.Token) (err : error) : (T * option error) * Decoder :=
  match pending with
  | [] => ((v, Some err), mkDecoder src [] err)
  | xml.TStart e :: rest => unmarshal v e (mkDecoder src rest err)
  | _ :: rest => decodeFrom v src rest err
  end.

Definition DecodeElement {T} `{Unmarshaler T} (v : T) (d : Decoder)
    : (T * option error) * Decoder :=
  decodeFrom v (decSource d) (decPending d) (decErr d).

(** Conn: [incoming] is a pointer and [errchan] a channel, both nil in
    the zero value. *)
Record Conn := mkConn {
  incoming : option Decoder;
  outgoing : netConn;
  errchan : option nat
}.

Definition zeroConn : Conn := mkConn None nilConn None.

(** The tail every fire-and-forget call shares:
    [if err != nil { c.errchan <- err }]. *)
Definition report (c : Conn) (err : option error) : M unit :=
  match err with
  | Some e => send (errchan c) e
  | None => ret tt
  end.

Definition id : M string :=
  fun w =>
    let '((b, err), w') := readRandom w in
    let w'' :=
      match err with
      | Some e =>
          setEntropy (entropy w')
            (stdout w' +:+ fmt.Sprintf "error generating id: %s" [Error e]) w'
      | None => w'
      end in
    Returns (fmt.Sprintf "%x" [b]) w''.

Definition Stream (c : Conn) (jid host : string) : M unit :=
  r <- Fprintf (outgoing c) xmlStream [jid; host; NsJabberClient; NsStream] ;;
  report c (snd r).

Definition StartTLS (c : Conn) : M unit :=
  r <- Fprintf (outgoing c) xmlStartTLS [NsTLS] ;;
  report c (snd r).

Definition UseTLS (c : Conn) (host : string) (w : World) : Conn :=
  let out := tlsClient (outgoing c) host in
  mkConn (Some (NewDecoder out w)) out (errchan c).

Definition Auth (c : Conn) (user pass resource : string) : M unit :=
  i <- id ;;
  r <- Fprintf (outgoing c) xmlIqSet [i; NsIqAuth; user; pass; resource] ;;
  report c (snd r).

Definition Features `{Unmarshaler features} (c : Conn) : M (features * Conn) :=
  match incoming c with
  | None => fun w => Panics w
  | Some d =>
      let '((f, err), d') := DecodeElement zeroFeatures d in
      report c err ;;
      ret (f, mkConn (Some d') (outgoing c) (errchan c))
  end.

(** The loop of Next over what the decoder will deliver. *)
Fixpoint nextFrom (src : netConn) (pending : list xml.Token) (err : error)
    : (xml.StartElement * option error) * Decoder :=
  match pending with
  | [] => ((xml.zeroStart, Some err), mkDecoder src [] err)
  | xml.TStart element :: rest =>
      if Str.is_empty (xml.Local (xml.ElemName element))
      then ((element, Some (errors_New "invalid xml response")),
            mkDecoder src rest err)
      else ((element, None), mkDecoder src rest err)
  | _ :: rest => nextFrom src rest err
  end.

Definition Next (c : Conn) : M ((xml.StartElement * option error) * Conn) :=
  match incoming c with
  | None => fun w => Panics w
  | Some d =>
      let '(r, d') := nextFrom (decSource d) (decPending d) (decErr d) in
      ret (r, mkConn (Some d') (outgoing c) (errchan c))
  end.

Definition Discover (c : Conn) (from to : string) : M unit :=
  i <- id ;;
  r <- Fprintf (outgoing c) xmlIqGet [from; to; i; NsDisco] ;;
  report c (snd r).

Definition Body `{Unmarshaler body} (c : Conn) : M (string * Conn) :=
  match incoming c with
  | None => fun w => Panics w
  | Some d =>
      let '((b, err), d') := DecodeElement zeroBody d in
      report c err ;;
      ret (bBody b, mkConn (Some d') (outgoing c) (errchan c))
  end.

Definition Query `{Unmarshaler query} (c : Conn) : M (query * Conn) :=
  match incoming c with
  | None => fun w => Panics w
  | Some d =>
      let '((q, err), d') := DecodeElement zeroQuery d in
      report c err ;;
      ret (q, mkConn (Some d') (outgoing c) (errchan c))
  end.

Definition Presence (c : Conn) (jid pres : string) : M unit :=
  r <- Fprintf (outgoing c) xmlPresence [jid; pres] ;;
  report c (snd r).

Definition MUCPart (c : Conn) (roomId : string) : M unit :=
  r <- Fprintf (outgoing c) xmlMUCPart [roomId] ;;
  report c (snd r).

Definition MUCPresence (c : Conn) (roomId jid : string) : M unit :=
  i <- id ;;
  r <- Fprintf (outgoing c) xmlMUCPresence [i; roomId; jid; NsMuc] ;;
  report c (snd r).

Definition MUCSend (c : Conn) (mtype to from body : string) : M unit :=
  i <- id ;;
  r <- Fprintf (outgoing c) xmlMUCMessage
         [from; i; to; mtype; html.EscapeString body] ;;
  report c (snd r).

Definition Roster (c : Conn) (from to : string) : M unit :=
  i <- id ;;
  r <- Fprintf (outgoing c) xmlIqGet [from; to; i; NsIqRoster] ;;
  report c (snd r).

Definition KeepAlive (c : Conn) : M (option error) :=
  r <- Fprintf (outgoing c) " " [] ;;
  match snd r with
  | Some err => ret (Some err)
  | None => ret None
  end.

Definition SetErrorChannel (c : Conn) (channel : option nat) : Conn :=
  mkConn (incoming c) (outgoing c) channel.

(** net.Dial *)
Definition net_Dial (network address : string) (w : World)
    : (netConn * option error) * World :=
  match dialFault w network address with
  | Some e => ((nilConn, Some e), w)
  | None => ((tcpConn (nextFd w) address, None), setNextFd (S (nextFd w)) w)
  end.

(** Dial returns a pointer, modelled by [option]: [Some c] is a pointer
    to the connection [c], [None] would be nil. *)
Definition Dial (host : string) (w : World) : (option Conn * option error) * World :=
  let c := zeroConn in
  let '((out, err), w') := net_Dial "tcp" (host +:+ ":5222") w in
  match err with
  | Some e => ((Some c, Some e), w')
  | None => ((Some (mkConn (Some (NewDecoder out w')) out (errchan c)), None), w')
  end.

(** ToMap: a Go map, as a finite map keyed by strings. *)
Definition ToMap (attr : list xml.Attr) : gmap string string :=
  foldl (fun m a => <[xml.Local (xml.AttrName a) := xml.Value a]> m) ∅ attr.

End xmpp.

(** ** Vocabulary of the statements *)

(** The nine fire-and-forget writers, as calls. *)
Inductive call :=
| callStream (jid host : string)
| callStartTLS
| callAuth (user pass resource : string)
| callDiscover (from to : string)
| callPresence (jid pres : string)
| callMUCPart (roomId : string)
| callMUCPresence (roomId jid : string)
| callMUCSend (mtype to from body : string)
| callRoster (from to : string).

Definition perform (c : xmpp.Conn) (k : call) : M unit :=
  match k with
  | callStream jid host => xmpp.Stream c jid host
  | callStartTLS => xmpp.StartTLS c
  | callAuth user pass resource => xmpp.Auth c user pass resource
  | callDiscover from to => xmpp.Discover c from to
  | callPresence jid pres => xmpp.Presence c jid pres
  | callMUCPart roomId => xmpp.MUCPart c roomId
  | callMUCPresence roomId jid => xmpp.MUCPresence c roomId jid
  | callMUCSend mtype to from body => xmpp.MUCSend c mtype to from body
  | callRoster from to => xmpp.Roster c from to
  end.

(** The fragment of a call, spelled out: every argument stands in the text
    as it is, except the body of a message, which is escaped.  [i] is the
    request id. *)
Definition fragment (k : call) (i : string) : string :=
  match k with
  | callStream jid host =>
      "<stream:stream from='" +:+ jid +:+ "' to='" +:+ host
      +:+ "' version='1.0' xml:lang='en' xmlns='jabber:client' xmlns:stream='http://etherx.jabber.org/streams'>"
  | callStartTLS => "<starttls xmlns='urn:ietf:params:xml:ns:xmpp-tls'/>"
  | callAuth user pass resource =>
      "<iq type='set' id='" +:+ i +:+ "'><query xmlns='jabber:iq:auth'><username>"
      +:+ user +:+ "</username><password>" +:+ pass +:+ "</password><resource>"
      +:+ resource +:+ "</resource></query></iq>"
  | callDiscover from to =>
      "<iq from='" +:+ from +:+ "' to='" +:+ to +:+ "' id='" +:+ i
      +:+ "' type='get'><query xmlns='http://jabber.org/protocol/disco#items'/></iq>"
  | callPresence jid pres =>
      "<presence from='" +:+ jid +:+ "'><show>" +:+ pres +:+ "</show></presence>"
  | callMUCPart roomId =>
      "<presence to='" +:+ roomId +:+ "' type='unavailable'></presence>"
  | callMUCPresence roomId jid =>
      "<presence id='" +:+ i +:+ "' to='" +:+ roomId +:+ "' from='" +:+ jid
      +:+ "'><x xmlns='http://jabber.org/protocol/muc'/></presence>"
  | callMUCSend mtype to from body =>
      "<message from='" +:+ from +:+ "' id='" +:+ i +:+ "' to='" +:+ to
      +:+ "' type='" +:+ mtype +:+ "'><body>" +:+ html.EscapeString body
      +:+ "</body></message>"
  | callRoster from to =>
      "<iq from='" +:+ from +:+ "' to='" +:+ to +:+ "' id='" +:+ i
      +:+ "' type='get'><query xmlns='jabber:iq:roster'/></iq>"
  end.

(** Calls with a quote or an angle bracket in one argument, one call for
    each argument that goes into a template as it is. *)
Definition unsafeCalls : list call :=
  [callStream "'" "example.com"; callStream "me@example.com" "<";
   callAuth "<" "secret" "home"; callAuth "me" "<" "home"; callAuth "me" "secret" "<";
   callDiscover "'" "conf.example.com"; callDiscover "me@example.com" "'";
   callPresence "'" "away"; callPresence "me@example.com" "<";
   callMUCPart "'";
   callMUCPresence "'" "me@example.com"; callMUCPresence "room@conf" "'";
   callMUCSend "'" "room@conf" "me@example.com" "hello";
   callMUCSend "groupchat" "'" "me@example.com" "hello";
   callMUCSend "groupchat" "room@conf" "'" "hello";
   callRoster "'" "example.com"; callRoster "me@example.com" "'"].

(** Two worlds that differ at most in the random source and standard
    output. *)
Definition sameNet (w w' : World) : Prop :=
  wire w' = wire w /\ writeFault w' = writeFault w /\ feed w' = feed w
  /\ dialFault w' = dialFault w /\ nextFd w' = nextFd w /\ chans w' = chans w.

(** A channel that takes a value at once: open, with a parked receiver or
    room in its buffer. *)
Definition accepts (ch : chanState) : bool :=
  negb (chClosed ch)
  && (bool_decide (0 < chRecvq ch) || bool_decide (length (chBuf ch) < chCap ch)).

(** [e] went into the channel: handed to a receiver or put in the buffer. *)
Definition pushed (e : error) (before after : chanState) : Prop :=
  (chTaken after = chTaken before ++ [e] /\ chBuf after = chBuf before)
  \/ (chBuf after = chBuf before ++ [e] /\ chTaken after = chTaken before).

(** A channel on which a sender has to wait: open, no receiver, no room. *)
Definition full (ch : chanState) : bool :=
  negb (chClosed ch) && bool_decide (chRecvq ch = 0)
  && bool_decide (chCap ch <= length (chBuf ch)).

(** No token of [ts] is a start element. *)
Definition noStart (ts : list xml.Token) : Prop :=
  Forall (fun t => xml.isStart t = false) ts.

(** The local name of an attribute, the key ToMap files it under. *)
Definition local (a : xml.Attr) : string := xml.Local (xml.AttrName a).

(** The connection after a read left its decoder as [d]. *)
Definition advance (c : xmpp.Conn) (d : xmpp.Decoder) : xmpp.Conn :=
  xmpp.mkConn (Some d) (xmpp.outgoing c) (xmpp.errchan c).

(** How a typed read [read] hands over the error [err] of its decode, where
    [a] is what it returns and [d] the decoder afterwards: no error, and it
    returns in the same world; an error, and it goes into the error channel
    before the read returns, or parks the read where no channel is
    installed. *)
Definition viaChannel {A} (read : M (A * xmpp.Conn)) (c : xmpp.Conn) (w : World)
    (a : A) (err : option error) (d : xmpp.Decoder) : Prop :=
  match err with
  | None => read w = Returns (a, advance c d) w
  | Some e =>
      match xmpp.errchan c with
      | Some i =>
          accepts (chans w i) = true ->
          exists w', read w = Returns (a, advance c d) w'
                     /\ pushed e (chans w i) (chans w' i)
      | None => read w = Blocks onNilChannel w
      end
  end.

Module Expect.
Import xml.

Definition name (s : string) : Name := mkName "" s.
Definition attr (k v : string) : Attr := mkAttr (name k) v.

(** What the message template tokenizes to. *)
Definition messageTokens (from i to mtype text : string) : list Token :=
  [TStart (mkStart (name "message")
             [attr "from" from; attr "id" i; attr "to" to; attr "type" mtype]);
   TStart (mkStart (name "body") [])]
  ++ flushText text []
  ++ [TEnd (name "body"); TEnd (name "message")].

(** The start tag of the stream header. *)
Definition streamHeader (jid host : string) : StartElement :=
  mkStart (mkName "stream" "stream")
    [attr "from" jid; attr "to" host; attr "version" "1.0";
     mkAttr (mkName "xml" "lang") "en";
     attr "xmlns" xmpp.NsJabberClient;
     mkAttr (mkName "xmlns" "stream") xmpp.NsStream].

(** The value of the last attribute of [attr] whose local name is [k]. *)
Fixpoint lastValue (k : string) (attr : list Attr) : option string :=
  match attr with
  | [] => None
  | a :: rest =>
      match lastValue k rest with
      | Some v => Some v
      | None => if bool_decide (Local (AttrName a) = k) then Some (Value a) else None
      end
  end.

End Expect.

(** ** Sample connections and worlds *)

Module Sample.

Definition openChan (cap : nat) : chanState := mkChan cap [] false 0 [].

Definition sock : netConn := tcpConn 3 "chat.example.com:5222".

(** A body with all five bytes that html.EscapeString replaces; the byte
    of code 34 is the double quote. *)
Definition quoted : string :=
  "if a<b && c>d: say " +:+ String "034" ("hi" +:+ String "034" " to 'x'").

(** An unmarshaller that stores nothing: it reads up to the end tag of
    the element and reports the error the stream ends with if there is
    none.  The statements below hold for every unmarshaller; this one
    only closes the examples. *)
Fixpoint skipElement (depth : nat) (src : netConn) (pending : list xml.Token)
    (err : error) : option error * xmpp.Decoder :=
  match pending with
  | [] => (Some err, xmpp.mkDecoder src [] err)
  | xml.TStart _ :: rest => skipElement (S depth) src rest err
  | xml.TEnd _ :: rest =>
      match depth with
      | 0 => (None, xmpp.mkDecoder src rest err)
      | S d => skipElement d src rest err
      end
  | _ :: rest => skipElement depth src rest err
  end.

Definition skipping (T : Type) : xmpp.Unmarshaler T :=
  fun v _ d =>
    let '(err, d') :=
      skipElement 0 (xmpp.decSource d) (xmpp.decPending d) (xmpp.decErr d) in
    ((v, err), d').

(** A world where every write succeeds, every dial succeeds, nothing
    arrives, and all channels are unbuffered with nobody receiving. *)
Definition quiet : World :=
  mkWorld [] (fun _ => None) (fun _ => ([], io.EOF)) (fun _ _ => None) 4
    (fun _ => openChan 0) "0123456789abcdefghijklmnopqrstuv" "".

Definition brokenPipe : error := errors_New "write: broken pipe".

(** The same world with every transport refusing writes. *)
Definition broken : World :=
  mkWorld [] (fun _ => Some brokenPipe) (fun _ => ([], io.EOF))
    (fun _ _ => None) 4 (fun _ => openChan 0)
    "0123456789abcdefghijklmnopqrstuv" "".

Definition refused : error := errors_New "dial tcp: connection refused".

(** A world where no dial gets through. *)
Definition unreachable : World :=
  mkWorld [] (fun _ => None) (fun _ => ([], io.EOF)) (fun _ _ => Some refused)
    4 (fun _ => openChan 0) "0123456789abcdefghijklmnopqrstuv" "".

(** The broken world where channel 0 has room for one error. *)
Definition brokenBuffered : World :=
  setChans (<[0 := openChan 1]> (chans broken)) broken.

(** The quiet world where channel 0 has room for one error. *)
Definition buffered : World :=
  setChans (<[0 := openChan 1]> (chans quiet)) quiet.

Definition connOn (ch : option nat) (w : World) : xmpp.Conn :=
  xmpp.mkConn (Some (xmpp.NewDecoder sock w)) sock ch.

(** A connection whose decoder will deliver the given tokens, then EOF. *)
Definition connReading (ts : list xml.Token) : xmpp.Conn :=
  xmpp.mkConn (Some (xmpp.mkDecoder sock ts io.EOF)) sock None.

Definition presenceStart : xml.StartElement :=
  xml.mkStart (xml.mkName "" "presence")
    [xml.mkAttr (xml.mkName "" "from") "room@conf/nick"].

Definition namelessStart : xml.StartElement :=
  xml.mkStart (xml.mkName "jabber:client" "") [].

End Sample.

(** ** Vocabulary for the properties beyond the claims *)

(** A lower-case hexadecimal digit. *)
Definition isLowerHex (c : ascii) : bool :=
  xml.isDigit c || xml.between 97 102 c.

(** The value of a hexadecimal digit, and the byte two digits stand for. *)
Definition unhexByte (hi lo : ascii) : ascii :=
  ascii_of_N (16 * xml.digitVal hi + xml.digitVal lo).

(** Reading hexadecimal text back, two digits a byte. *)
Fixpoint unhex (s : string) : string :=
  match s with
  | String hi (String lo r) => String (unhexByte hi lo) (unhex r)
  | _ => ""
  end.



(** The tokens the stanza templates stand for. *)
Module Stanza.
Import xml Expect.

Definition elem (n : string) (attrs : list Attr) : Token :=
  TStart (mkStart (name n) attrs).

Definition close (n : string) : Token := TEnd (name n).


Definition startTLSTokens : list Token :=
  [elem "starttls" [attr "xmlns" xmpp.NsTLS]; close "starttls"].






End Stanza.

(** A caller that issues writer calls one after the other. *)
Fixpoint performAll (c : xmpp.Conn) (ks : list call) : M unit :=
  match ks with
  | [] => ret tt
  | k :: rest => perform c k ;; performAll c rest
  end.

(** A caller that calls Next [n] times, each time on the connection the
    call before left, and collects what the calls return. *)
Fixpoint nextMany (n : nat) (c : xmpp.Conn)
    : M (list (xml.StartElement * option error) * xmpp.Conn) :=
  match n with
  | 0 => ret ([], c)
  | S n' =>
      r <- xmpp.Next c ;;
      rs <- nextMany n' (snd r) ;;
      ret (fst r :: fst rs, snd rs)
  end.

(** The start elements among tokens, in order. *)
Fixpoint starts (ts : list xml.Token) : list xml.StartElement :=
  match ts with
  | [] => []
  | xml.TStart e :: rest => e :: starts rest
  | _ :: rest => starts rest
  end.

(** What Next returns for the start element [e]. *)
Definition nextResult (e : xml.StartElement) : xml.StartElement * option error :=
  (e, if Str.is_empty (xml.Local (xml.ElemName e))
      then Some (errors_New "invalid xml response") else None).

(** What ToMap reads of an attribute. *)
Definition keyValue (a : xml.Attr) : string * string := (local a, xml.Value a).

(** ** More samples *)

Module Sample2.

Definition iqStart : xml.StartElement :=
  xml.mkStart (xml.mkName "" "iq")
    [xml.mkAttr (xml.mkName "" "type") "result"].

Definition queryStart : xml.StartElement :=
  xml.mkStart (xml.mkName "" "query")
    [xml.mkAttr (xml.mkName "" "xmlns") "jabber:iq:roster"].

(** An iq result as a decoder delivers it, with white space in between. *)
Definition iqResult : list xml.Token :=
  [xml.TCharData " "; xml.TStart iqStart; xml.TCharData " ";
   xml.TStart queryStart; xml.TEnd (xml.mkName "" "query");
   xml.TEnd (xml.mkName "" "iq")].

(** The bytes NUL, carriage return and line feed, each as a string. *)
Definition nul : string := String "000" "".
Definition cr : string := String "013" "".
Definition lf : string := String "010" "".

(** Two attributes of one local name in different name spaces. *)
Definition prefixed : list xml.Attr :=
  [xml.mkAttr (xml.mkName "xml" "lang") "en";
   xml.mkAttr (xml.mkName "" "lang") "fr"].

End Sample2.

(** * Properties *)

(** ** Strings and formatting *)

Module StrFacts.

Lemma app_assoc (a b c : string) : (a +:+ b) +:+ c = a +:+ (b +:+ c).
Proof. induction a as [|x a IH]; simpl; [reflexivity | now rewrite IH]. Qed.

Lemma app_nil_r (a : string) : a +:+ "" = a.
Proof. induction a as [|x a IH]; simpl; [reflexivity | now rewrite IH]. Qed.

Lemma snoc_app (a : string) (c : ascii) (b : string) :
  Str.snoc a c +:+ b = a +:+ String c b.
Proof. unfold Str.snoc. now rewrite app_assoc. Qed.

Lemma all_app p a b : Str.all p (a +:+ b) = Str.all p a && Str.all p b.
Proof.
  induction a as [|x a IH]; simpl; [reflexivity|].
  rewrite IH. now destruct (p x).
Qed.

Lemma length_app a b : String.length (a +:+ b) = String.length a + String.length b.
Proof. induction a as [|x a IH]; simpl; [reflexivity | now rewrite IH]. Qed.

End StrFacts.

(** ** The tokenizer on the pieces a stanza is made of *)

Module LexFacts.
Import xml.

Lemma run_app l a b : run l (a +:+ b) = l' ← run l a; run l' b.
Proof.
  revert l. induction a as [|x a IH]; intros l; simpl; [reflexivity|].
  destruct (step l x) as [l1|]; simpl; [apply IH | reflexivity].
Qed.

(** A safe attribute value is taken over byte for byte. *)
Lemma run_attr_value n attrs an q acc out v :
  attrSafe q v = true ->
  run (mkLexer (InAttrValue n attrs an q acc) out) v
  = Some (mkLexer (InAttrValue n attrs an q (acc +:+ v)) out).
Proof.
  revert acc. induction v as [|c v IH]; intros acc Hs; simpl.
  - now rewrite StrFacts.app_nil_r.
  - unfold attrSafe in Hs. simpl in Hs.
    apply andb_prop in Hs as [Hc Hv]. apply andb_prop in Hc as [Hc Hsp].
    apply andb_prop in Hc as [Hc Hamp]. apply andb_prop in Hc as [Hq Hlt].
    unfold step; simpl.
    destruct (bool_decide (c = q)); [discriminate|].
    destruct (bool_decide (c = "<"%char)); [discriminate|].
    destruct (isLineSpace c); [discriminate|].
    destruct (bool_decide (c = "&"%char)); [discriminate|].
    simpl. rewrite (IH (Str.snoc acc c) Hv). now rewrite StrFacts.snoc_app.
Qed.

(** One escaped byte decodes to the byte. *)
Lemma run_escape_byte acc out c :
  run (mkLexer (InText acc) out) (html.escape_byte c)
  = Some (mkLexer (InText (Str.snoc acc c)) out).
Proof.
  unfold html.escape_byte.
  repeat case_bool_decide; subst; try reflexivity.
  simpl. unfold step; simpl.
  rewrite !bool_decide_eq_false_2 by assumption. reflexivity.
Qed.

(** Escaped text decodes to the text. *)
Lemma run_escaped acc out s :
  run (mkLexer (InText acc) out) (html.EscapeString s)
  = Some (mkLexer (InText (acc +:+ s)) out).
Proof.
  revert acc. induction s as [|c s IH]; intros acc; simpl.
  - now rewrite StrFacts.app_nil_r.
  - rewrite run_app, run_escape_byte. simpl.
    rewrite IH. now rewrite StrFacts.snoc_app.
Qed.

Lemma uscan_app u a b : uscan u (a +:+ b) = u' ← uscan u a; uscan u' b.
Proof.
  revert u. induction a as [|x a IH]; intros u; simpl; [reflexivity|].
  destruct (ustep u x) as [u1|]; simpl; [apply IH | reflexivity].
Qed.

Lemma bscan_app n a b : bscan n (a +:+ b) = n' ← bscan n a; bscan n' b.
Proof.
  revert n. induction a as [|x a IH]; intros n; simpl; [reflexivity|].
  destruct (bstep n x) as [n1|]; simpl; [apply IH | reflexivity].
Qed.

(** Without a carriage return there is no line end to rewrite. *)
Lemma normalize_noCR s : noCR s = true -> normalizeLines s = s.
Proof.
  unfold normalizeLines, noCR.
  induction s as [|c s IH]; simpl; [reflexivity|].
  intros H. apply andb_prop in H as [Hc Hs].
  destruct (bool_decide (c = "013"%char)); [discriminate|].
  rewrite andb_false_r. now rewrite IH.
Qed.

(** On legal input without a carriage return the tokens are the markup. *)
Lemma tokens_of_clean s :
  validChars s = true -> noCDataEnd s = true -> noCR s = true ->
  tokens s = markup s.
Proof.
  intros Hv Hc Hn. unfold tokens, legal. now rewrite Hv, Hc, normalize_noCR.
Qed.

(** Input whose markup is refused is refused. *)
Lemma tokens_refused s : noCR s = true -> markup s = None -> tokens s = None.
Proof.
  intros Hn Hm. unfold tokens. rewrite normalize_noCR, Hm by assumption.
  now destruct (legal s).
Qed.

Lemma validChars_uscan v : validChars v = true -> uscan Boundary v = Some Boundary.
Proof.
  unfold validChars. destruct (uscan Boundary v) as [[]|]; congruence.
Qed.

Lemma noCDataEnd_bscan v : noCDataEnd v = true -> exists m, bscan 0 v = Some m.
Proof. unfold noCDataEnd. destruct (bscan 0 v); [eauto | discriminate]. Qed.

(** Text without a closing angle bracket cannot hold the CDATA end,
    whatever stands before it. *)
Lemma bscan_noGt n s : noGt s = true -> exists m, bscan n s = Some m.
Proof.
  unfold noGt. revert n. induction s as [|c s IH]; intros n; simpl; [eauto|].
  intros H. apply andb_prop in H as [Hc Hs]. unfold bstep.
  destruct (bool_decide (c = ">"%char)); [discriminate|]. simpl. now apply IH.
Qed.

Lemma attrSafe_noCR q v : attrSafe q v = true -> noCR v = true.
Proof.
  unfold attrSafe, noCR. induction v as [|c v IH]; simpl; [reflexivity|].
  intros H. apply andb_prop in H as [Hc Hv]. rewrite (IH Hv), andb_true_r.
  apply andb_prop in Hc as [_ Hsp]. unfold isLineSpace in Hsp.
  case_bool_decide as Hcr; [|reflexivity]. subst c. discriminate.
Qed.

(** What a plain attribute value brings along. *)
(** The only control characters among legal ones are the tab and the
    line ends. *)
Lemma ustep_control u c u' :
  ustep u c = Some u' -> isControl c = true -> isLineSpace c = true.
Proof.
  destruct c as [[] [] [] [] [] [] [] []]; try (intros _ H; discriminate H);
    destruct u; vm_compute; congruence.
Qed.

Lemma plainAttr_noControl q v : plainAttr q v = true -> noControl v = true.
Proof.
  unfold plainAttr, validChars, noControl, attrSafe. intros H.
  apply andb_prop in H as [H _]. apply andb_prop in H as [Hs Hv].
  assert (Hu : exists u', uscan Boundary v = Some u')
    by (destruct (uscan Boundary v); [eauto | discriminate]).
  clear Hv. revert Hu Hs. generalize Boundary.
  induction v as [|c v IH]; intros u [u' Hu] Hs; [reflexivity|].
  simpl in *. apply andb_prop in Hs as [Hc Hs].
  destruct (ustep u c) as [u1|] eqn:Hstep; [|discriminate].
  rewrite (IH u1) by eauto. rewrite andb_true_r.
  destruct (isControl c) eqn:Hctl; [|reflexivity].
  rewrite (ustep_control _ _ _ Hstep Hctl) in Hc.
  now rewrite andb_false_r in Hc.
Qed.

Lemma plainAttr_parts q v :
  plainAttr q v = true ->
  attrSafe q v = true /\ uscan Boundary v = Some Boundary
  /\ (exists m, bscan 0 v = Some m) /\ noCR v = true.
Proof.
  unfold plainAttr. intros H.
  apply andb_prop in H as [H Hc]. apply andb_prop in H as [Hs Hv].
  split; [exact Hs|]. split; [now apply validChars_uscan|].
  split; [now apply noCDataEnd_bscan | now apply (attrSafe_noCR q)].
Qed.

(** Escaping keeps the characters legal. *)
Lemma uscan_escaped u s : uscan u (html.EscapeString s) = uscan u s.
Proof.
  revert u. induction s as [|c s IH]; intros u; [reflexivity|].
  simpl. rewrite uscan_app. unfold html.escape_byte.
  repeat case_bool_decide; subst;
    try (destruct u; simpl; rewrite ?IH; reflexivity).
  simpl. destruct (ustep u c); simpl; [apply IH | reflexivity].
Qed.

Lemma noGt_escaped s : noGt (html.EscapeString s) = true.
Proof.
  unfold noGt. induction s as [|c s IH]; [reflexivity|].
  simpl. rewrite StrFacts.all_app, IH, andb_true_r. unfold html.escape_byte.
  repeat case_bool_decide; subst; try reflexivity.
  simpl. now rewrite bool_decide_eq_false_2.
Qed.

Lemma noCR_escape_byte c : noCR (html.escape_byte c) = noCR (String c "").
Proof. unfold html.escape_byte. repeat case_bool_decide; subst; reflexivity. Qed.

Lemma noCR_escaped s : noCR s = true -> noCR (html.EscapeString s) = true.
Proof.
  induction s as [|c s IH]; [reflexivity|].
  change (noCR (String c s)) with (noCR (String c "" +:+ s)).
  simpl html.EscapeString. unfold noCR in *. rewrite !StrFacts.all_app.
  intros H. apply andb_prop in H as [Hc Hs].
  rewrite (IH Hs), andb_true_r. fold (noCR (html.escape_byte c)).
  now rewrite noCR_escape_byte.
Qed.

(** What the escaped form of a body of legal characters without carriage
    return brings along. *)
Lemma escaped_parts s :
  validChars s = true -> noCR s = true ->
  uscan Boundary (html.EscapeString s) = Some Boundary
  /\ (exists m, bscan 0 (html.EscapeString s) = Some m)
  /\ noCR (html.EscapeString s) = true.
Proof.
  intros Hv Hn. split; [rewrite uscan_escaped; now apply validChars_uscan|].
  split; [apply bscan_noGt, noGt_escaped | now apply noCR_escaped].
Qed.

End LexFacts.

Module FragmentFacts.
Import xml LexFacts Expect.

Lemma hex_byte_safe c : attrSafe "'" (fmt.hex (String c "")) = true.
Proof. destruct c as [[] [] [] [] [] [] [] []]; vm_compute; reflexivity. Qed.

Lemma hex_cons c s : fmt.hex (String c s) = fmt.hex (String c "") +:+ fmt.hex s.
Proof. reflexivity. Qed.

(** Hexadecimal text needs no escaping. *)
Lemma hex_safe s : attrSafe "'" (fmt.hex s) = true.
Proof.
  induction s as [|c s IH]; [reflexivity|].
  rewrite hex_cons. pose proof (hex_byte_safe c) as Hc.
  unfold attrSafe in *. now rewrite StrFacts.all_app, IH, Hc.
Qed.

Lemma hex_byte_valid c :
  uscan Boundary (fmt.hex (String c "")) = Some Boundary
  /\ noGt (fmt.hex (String c "")) = true.
Proof. destruct c as [[] [] [] [] [] [] [] []]; vm_compute; split; reflexivity. Qed.

Lemma hex_valid s : uscan Boundary (fmt.hex s) = Some Boundary.
Proof.
  induction s as [|c s IH]; [reflexivity|].
  rewrite hex_cons, uscan_app, (proj1 (hex_byte_valid c)). exact IH.
Qed.

Lemma hex_noGt s : noGt (fmt.hex s) = true.
Proof.
  induction s as [|c s IH]; [reflexivity|].
  rewrite hex_cons. pose proof (proj2 (hex_byte_valid c)) as Hc.
  unfold noGt in *. now rewrite StrFacts.all_app, Hc, IH.
Qed.

(** Hexadecimal text is a plain attribute value. *)
Lemma hex_plain s : plainAttr "'" (fmt.hex s) = true.
Proof.
  unfold plainAttr, validChars, noCDataEnd.
  rewrite hex_safe, hex_valid.
  destruct (bscan_noGt 0 (fmt.hex s) (hex_noGt s)) as [m ->]. reflexivity.
Qed.

(** The tokenizer on the next piece of a fragment: a safe attribute
    value, escaped text, or a literal of the template. *)
Ltac lex_piece :=
  first
    [ rewrite run_attr_value by assumption
    | rewrite run_escaped
    | match goal with
      | |- context [run ?l ?s] =>
          let r := eval vm_compute in (run l s) in change (run l s) with r
      end ];
  cbn [mbind option_bind].

Ltac lex := repeat (rewrite run_app; lex_piece); lex_piece.

(** The same for the check of the characters, piece by piece. *)
Ltac valid_piece :=
  first
    [ match goal with
      | H : uscan Boundary ?v = Some _ |- context [uscan Boundary ?v] => rewrite H
      end
    | match goal with
      | |- context [uscan ?u ?s] =>
          let r := eval vm_compute in (uscan u s) in change (uscan u s) with r
      end ];
  cbn [mbind option_bind].

Ltac valid_pieces :=
  unfold validChars; repeat (rewrite uscan_app; valid_piece); valid_piece;
  reflexivity.

Ltac cdata_piece :=
  first
    [ match goal with
      | H : bscan 0 ?v = Some _ |- context [bscan 0 ?v] => rewrite H
      end
    | match goal with
      | |- context [bscan ?n ?s] =>
          let r := eval vm_compute in (bscan n s) in change (bscan n s) with r
      end ];
  cbn [mbind option_bind].

Ltac cdata_pieces :=
  unfold noCDataEnd; repeat (rewrite bscan_app; cdata_piece); cdata_piece;
  reflexivity.

Ltac nocr_pieces :=
  unfold noCR in *; rewrite ?StrFacts.all_app;
  repeat match goal with
         | H : Str.all _ ?v = true |- context [Str.all _ ?v] => rewrite H
         end;
  reflexivity.

Ltac unpack_attrs :=
  repeat match goal with
         | H : plainAttr ?q ?v = true |- _ =>
             destruct (plainAttr_parts q v H) as (? & ? & [? ?] & ?); clear H
         end.

(** A fragment is clean when its pieces are. *)
Ltac clean_fragment :=
  first [ valid_pieces | cdata_pieces | nocr_pieces ].

Lemma lex_message from i to mtype body :
  plainAttr "'" from = true -> plainAttr "'" i = true ->
  plainAttr "'" to = true -> plainAttr "'" mtype = true ->
  validChars body = true -> noCR body = true ->
  tokens (fragment (callMUCSend mtype to from body) i)
  = Some (messageTokens from i to mtype body).
Proof.
  intros Hf Hi Ht Hm Hv Hn. unpack_attrs.
  destruct (escaped_parts body Hv Hn) as (He1 & [me He2] & He3).
  unfold fragment. rewrite tokens_of_clean; [|clean_fragment..].
  unfold markup. lex. destruct body; reflexivity.
Qed.

Lemma message_is_element from i to mtype body :
  isElement (messageTokens from i to mtype body) = true.
Proof. destruct body; reflexivity. Qed.

Lemma lex_stream jid host i :
  plainAttr "'" jid = true -> plainAttr "'" host = true ->
  startTag (fragment (callStream jid host) i) = Some (streamHeader jid host).
Proof.
  intros Hj Hh. unpack_attrs.
  unfold startTag, fragment. rewrite tokens_of_clean; [|clean_fragment..].
  unfold markup. lex. reflexivity.
Qed.

Lemma decode_escaped s :
  validChars s = true -> noCR s = true ->
  decodeText (html.EscapeString s) = Some s.
Proof.
  intros Hv Hn. destruct (escaped_parts s Hv Hn) as (He1 & [me He2] & He3).
  unfold decodeText, legal, validChars, noCDataEnd.
  rewrite He1, He2, normalize_noCR, run_escaped by assumption. reflexivity.
Qed.

End FragmentFacts.

(** ** Writers: the shape every call shares *)

Module WriterFacts.
Import xmpp.

Lemma sameNet_refl w : sameNet w w.
Proof. repeat split. Qed.

Lemma sprintf_hex b : fmt.Sprintf "%x" [b] = fmt.hex b.
Proof. unfold fmt.Sprintf. simpl. apply StrFacts.app_nil_r. Qed.

(** id always returns: sixteen hex digits, and the network is as it was. *)
Lemma id_returns w :
  exists b w', id w = Returns (fmt.hex b) w' /\ sameNet w w'
               /\ String.length b = 8.
Proof.
  unfold id, readRandom.
  set (got := Str.take 8 (entropy w)).
  exists (got +:+ Str.replicate (8 - String.length got) (ascii_of_N 0)).
  eexists. split; [rewrite sprintf_hex; reflexivity|].
  split.
  - repeat case_bool_decide; repeat split.
  - rewrite StrFacts.length_app.
    assert (String.length got <= 8) as Hle.
    { subst got. generalize (entropy w) 8. intros s n. revert s.
      induction n as [|n IH]; intros [|c s]; simpl; try lia.
      specialize (IH s). lia. }
    assert (forall n c, String.length (Str.replicate n c) = n) as Hrep.
    { intros n c. induction n; simpl; congruence. }
    rewrite Hrep. lia.
Qed.

(** Every call formats its fragment and writes it in one Write, then
    reports the error of that Write, if any. *)
Lemma perform_shape c k w :
  exists b w1, sameNet w w1 /\ String.length b = 8 /\
    perform c k w
    = (r <- Write (outgoing c) (fragment k (fmt.hex b)) ;; report c (snd r)) w1.
Proof.
  destruct (id_returns w) as (b & w1 & Hid & Hnet & Hlen).
  destruct k; simpl.
  1,2,5,6: exists b, w; split; [apply sameNet_refl|]; split; [exact Hlen|]; reflexivity.
  all: exists b, w1; split; [exact Hnet|]; split; [exact Hlen|].
  all: unfold Auth, Discover, MUCPresence, MUCSend, Roster.
  all: unfold bind at 1; rewrite Hid; reflexivity.
Qed.

End WriterFacts.

Module ChannelFacts.

Lemma write_ok out s w :
  hasSocket out = true -> writeFault w out = None ->
  Write out s w = Returns (String.length s, None) (setWire (wire w ++ [(out, s)]) w).
Proof. intros Hs Hf. unfold Write. now rewrite Hs, Hf. Qed.

Lemma write_fails out s w e :
  hasSocket out = true -> writeFault w out = Some e ->
  Write out s w = Returns (0, Some e) w.
Proof. intros Hs Hf. unfold Write. now rewrite Hs, Hf. Qed.

Lemma send_accepted i e w :
  accepts (chans w i) = true ->
  exists w', send (Some i) e w = Returns tt w' /\ wire w' = wire w
             /\ pushed e (chans w i) (chans w' i).
Proof.
  unfold accepts, send. intros H.
  apply andb_prop in H as [Hopen Hroom].
  destruct (chClosed (chans w i)); [discriminate|].
  case_bool_decide as Hr.
  - eexists. split; [reflexivity|]. split; [reflexivity|].
    left. simpl. rewrite fn_lookup_insert. simpl. auto.
  - simpl in Hroom. rewrite Hroom.
    eexists. split; [reflexivity|]. split; [reflexivity|].
    right. simpl. rewrite fn_lookup_insert. simpl. auto.
Qed.

Lemma send_full i e w :
  full (chans w i) = true -> send (Some i) e w = Blocks (onFullChannel i) w.
Proof.
  unfold full, send. intros H.
  apply andb_prop in H as [H Hcap]. apply andb_prop in H as [Hopen Hrecv].
  destruct (chClosed (chans w i)); [discriminate|].
  apply bool_decide_eq_true_1 in Hrecv, Hcap.
  rewrite Hrecv. simpl.
  rewrite bool_decide_eq_false_2 by lia. reflexivity.
Qed.

End ChannelFacts.

(** ** The claims about writers *)

Module Writers.
Import xmpp WriterFacts ChannelFacts LexFacts FragmentFacts Expect.

(** A call whose Write succeeds returns, and the wire carries its
    fragment. *)
Lemma perform_writes c k w :
  hasSocket (outgoing c) = true -> writeFault w (outgoing c) = None ->
  exists b w', String.length b = 8 /\ perform c k w = Returns tt w'
    /\ wire w' = wire w ++ [(outgoing c, fragment k (fmt.hex b))]
    /\ chans w' = chans w.
Proof.
  intros Hs Hf.
  destruct (perform_shape c k w) as (b & w1 & Hnet & Hlen & ->).
  destruct Hnet as (Hwire & Hfault & _ & _ & _ & Hch).
  exists b. eexists. split; [exact Hlen|].
  unfold bind. rewrite write_ok by (rewrite ?Hfault; assumption).
  simpl. unfold ret. split; [reflexivity|]. simpl. rewrite Hwire. auto.
Qed.

(** A call whose Write fails goes on to send the error on the channel. *)
Lemma perform_fails c k w e :
  hasSocket (outgoing c) = true -> writeFault w (outgoing c) = Some e ->
  exists w1, sameNet w w1 /\ perform c k w = send (errchan c) e w1.
Proof.
  intros Hs Hf.
  destruct (perform_shape c k w) as (b & w1 & Hnet & Hlen & ->).
  exists w1. split; [exact Hnet|].
  destruct Hnet as (Hwire & Hfault & _).
  unfold bind. rewrite (write_fails _ _ _ e) by (rewrite ?Hfault; assumption).
  reflexivity.
Qed.

Lemma noMarkup_escaped s : html.noMarkup (html.EscapeString s) = true.
Proof.
  unfold html.noMarkup. induction s as [|c s IH]; [reflexivity|].
  simpl. rewrite StrFacts.all_app, IH, andb_true_r. unfold html.escape_byte.
  repeat case_bool_decide; subst; try reflexivity.
  simpl. now rewrite !bool_decide_eq_false_2 by assumption.
Qed.

(** C1, as the code has it.  MUCSend escapes the body, whatever bytes it
    holds, before it goes into the message template: the stanza that
    reaches the wire carries [html.EscapeString body] between the body
    tags, and that text holds no angle bracket and no quote.  When the
    body is the UTF-8 encoding of legal XML characters and holds no
    carriage return, decoding the escaped body gives the body back; when
    moreover from, to and the type are plain attribute values (the code
    copies them as they are), the stanza is one well-formed message
    element whose character data decodes to the body. *)
Theorem MUCSend_body_round_trip c mtype to from body w :
  hasSocket (outgoing c) = true -> writeFault w (outgoing c) = None ->
  exists b w' stanza,
    String.length b = 8
    /\ MUCSend c mtype to from body w = Returns tt w'
    /\ wire w' = wire w ++ [(outgoing c, stanza)]
    /\ stanza = "<message from='" +:+ from +:+ "' id='" +:+ fmt.hex b +:+ "' to='"
                +:+ to +:+ "' type='" +:+ mtype +:+ "'><body>"
                +:+ html.EscapeString body +:+ "</body></message>"
    /\ html.noMarkup (html.EscapeString body) = true
    /\ (xml.validChars body = true -> xml.noCR body = true ->
        xml.decodeText (html.EscapeString body) = Some body)
    /\ (xml.plainAttr "'" from = true -> xml.plainAttr "'" to = true ->
        xml.plainAttr "'" mtype = true ->
        xml.validChars body = true -> xml.noCR body = true ->
        xml.wellFormedElement stanza = true
        /\ xml.tokens stanza = Some (messageTokens from (fmt.hex b) to mtype body)).
Proof.
  intros Hs Hf.
  destruct (perform_writes c (callMUCSend mtype to from body) w Hs Hf)
    as (b & w' & Hlen & Hrun & Hwire & _).
  exists b, w', (fragment (callMUCSend mtype to from body) (fmt.hex b)).
  split; [exact Hlen|]. split; [exact Hrun|]. split; [exact Hwire|].
  split; [reflexivity|]. split; [apply noMarkup_escaped|].
  split; [apply decode_escaped|].
  intros Hfrom Hto Hm Hv Hn.
  pose proof (lex_message from (fmt.hex b) to mtype body
                Hfrom (hex_plain b) Hto Hm Hv Hn) as Htok.
  split; [|exact Htok].
  unfold xml.wellFormedElement. rewrite Htok. apply message_is_element.
Qed.

Lemma MUCSend_body_round_trip_witness :
  exists b w' stanza,
    String.length b = 8
    /\ MUCSend (Sample.connOn None Sample.quiet) "groupchat" "room@conf" "me@host"
         Sample.quoted Sample.quiet = Returns tt w'
    /\ wire w' = wire Sample.quiet ++ [(Sample.sock, stanza)]
    /\ stanza = "<message from='" +:+ "me@host" +:+ "' id='" +:+ fmt.hex b
                +:+ "' to='" +:+ "room@conf" +:+ "' type='" +:+ "groupchat"
                +:+ "'><body>" +:+ html.EscapeString Sample.quoted
                +:+ "</body></message>"
    /\ xml.decodeText (html.EscapeString Sample.quoted) = Some Sample.quoted
    /\ xml.wellFormedElement stanza = true
    /\ xml.tokens stanza
       = Some (messageTokens "me@host" (fmt.hex b) "room@conf" "groupchat"
                 Sample.quoted).
Proof.
  destruct (MUCSend_body_round_trip (Sample.connOn None Sample.quiet)
              "groupchat" "room@conf" "me@host" Sample.quoted Sample.quiet
              eq_refl eq_refl)
    as (b & w' & stanza & Hlen & Hrun & Hwire & Hst & _ & Hdec & Hwf).
  exists b, w', stanza.
  destruct (Hwf eq_refl eq_refl eq_refl eq_refl eq_refl) as [Hel Htok].
  repeat split; auto.
Defined.

(** C1 as stated fails: not every body gives well-formed XML that
    decodes to the body.  MUCSend leaves the byte NUL in the body as it
    is, and a stanza with that byte is not well-formed; it leaves a
    carriage return as it is, and the stanza decodes to a body with a line
    feed in its place.  And with a quote in the from address the stanza is
    not well-formed whatever the body is. *)
Lemma MUCSend_body_counterexample :
  (exists w' stanza,
      MUCSend (Sample.connOn None Sample.quiet) "groupchat" "room@conf" "me@host"
        Sample2.nul Sample.quiet = Returns tt w'
      /\ wire w' = [(Sample.sock, stanza)]
      /\ html.EscapeString Sample2.nul = Sample2.nul
      /\ xml.wellFormedElement stanza = false
      /\ xml.decodeText (html.EscapeString Sample2.nul) = None)
  /\ (exists w' stanza,
        MUCSend (Sample.connOn None Sample.quiet) "groupchat" "room@conf" "me@host"
          Sample2.cr Sample.quiet = Returns tt w'
        /\ wire w' = [(Sample.sock, stanza)]
        /\ xml.tokens stanza
           = Some (messageTokens "me@host" "3031323334353637" "room@conf"
                     "groupchat" Sample2.lf)
        /\ xml.decodeText (html.EscapeString Sample2.cr) = Some Sample2.lf
        /\ Sample2.lf <> Sample2.cr)
  /\ (exists w' stanza,
        MUCSend (Sample.connOn None Sample.quiet) "groupchat" "room@conf" "'"
          "hello" Sample.quiet = Returns tt w'
        /\ wire w' = [(Sample.sock, stanza)]
        /\ xml.wellFormedElement stanza = false).
Proof.
  split; [|split].
  - eexists. eexists. split; [reflexivity|]. split; [reflexivity|].
    split; [reflexivity|]. split; vm_compute; reflexivity.
  - eexists. eexists. split; [reflexivity|]. split; [reflexivity|].
    split; [vm_compute; reflexivity|]. split; [vm_compute; reflexivity|].
    discriminate.
  - eexists. eexists. split; [reflexivity|]. split; [reflexivity|].
    vm_compute. reflexivity.
Qed.

(** C7, as the code has it.  Stream copies jid and host into the header
    as they are.  When both are plain attribute values, that is the UTF-8
    encoding of legal XML characters with no quote, opening angle
    bracket, ampersand, tab, line end or CDATA end among them, what
    reaches the wire is one well-formed start tag whose from and to are
    the arguments and whose version and namespaces are the constants,
    and it holds no control character. *)
Theorem Stream_header_of_safe_arguments c jid host w :
  hasSocket (outgoing c) = true -> writeFault w (outgoing c) = None ->
  exists w' header,
    Stream c jid host w = Returns tt w'
    /\ wire w' = wire w ++ [(outgoing c, header)]
    /\ header = "<stream:stream from='" +:+ jid +:+ "' to='" +:+ host
                +:+ "' version='1.0' xml:lang='en' xmlns='jabber:client' xmlns:stream='http://etherx.jabber.org/streams'>"
    /\ (xml.plainAttr "'" jid = true -> xml.plainAttr "'" host = true ->
        xml.startTag header = Some (streamHeader jid host)
        /\ xml.noControl header = true).
Proof.
  intros Hs Hf.
  destruct (perform_writes c (callStream jid host) w Hs Hf)
    as (b & w' & _ & Hrun & Hwire & _).
  exists w', (fragment (callStream jid host) (fmt.hex b)).
  split; [exact Hrun|]. split; [exact Hwire|]. split; [reflexivity|].
  intros Hj Hh. split; [now apply lex_stream|].
  apply plainAttr_noControl in Hj, Hh. unfold fragment, xml.noControl in *.
  rewrite !StrFacts.all_app, Hj, Hh. reflexivity.
Qed.

Lemma Stream_header_of_safe_arguments_witness :
  exists w' header,
    Stream (Sample.connOn None Sample.quiet) "me@example.com" "example.com"
      Sample.quiet = Returns tt w'
    /\ wire w' = wire Sample.quiet ++ [(Sample.sock, header)]
    /\ header = "<stream:stream from='" +:+ "me@example.com" +:+ "' to='"
                +:+ "example.com"
                +:+ "' version='1.0' xml:lang='en' xmlns='jabber:client' xmlns:stream='http://etherx.jabber.org/streams'>"
    /\ xml.startTag header = Some (streamHeader "me@example.com" "example.com")
    /\ xml.noControl header = true.
Proof.
  destruct (Stream_header_of_safe_arguments (Sample.connOn None Sample.quiet)
              "me@example.com" "example.com" Sample.quiet eq_refl eq_refl)
    as (w' & header & Hrun & Hwire & Hst & Htag).
  exists w', header. destruct (Htag eq_refl eq_refl) as [Ht Hc].
  repeat split; auto.
Defined.

(** C7 as stated fails.  With a quote in jid the header that reaches the
    wire is a start tag whose from is not jid and which carries an
    attribute of the caller's making; with jid a lone quote it is no
    start tag at all; and a control character in jid goes into the header
    as it is, which is then no well-formed start tag either. *)
Lemma Stream_header_counterexample :
  (exists header e,
     Stream (Sample.connOn None Sample.quiet) "me' injected='1" "example.com"
       Sample.quiet
     = Returns tt (setWire [(Sample.sock, header)] Sample.quiet)
     /\ xml.startTag header = Some e
     /\ xml.ElemAttr e
        = [attr "from" "me"; attr "injected" "1"; attr "to" "example.com";
           attr "version" "1.0"; xml.mkAttr (xml.mkName "xml" "lang") "en";
           attr "xmlns" "jabber:client";
           xml.mkAttr (xml.mkName "xmlns" "stream") "http://etherx.jabber.org/streams"]
     /\ e <> streamHeader "me' injected='1" "example.com")
  /\ (exists header,
       Stream (Sample.connOn None Sample.quiet) "'" "example.com" Sample.quiet
       = Returns tt (setWire [(Sample.sock, header)] Sample.quiet)
       /\ xml.startTag header = None)
  /\ (exists header,
       Stream (Sample.connOn None Sample.quiet) Sample2.nul "example.com"
         Sample.quiet
       = Returns tt (setWire [(Sample.sock, header)] Sample.quiet)
       /\ header = "<stream:stream from='" +:+ Sample2.nul
                   +:+ "' to='example.com' version='1.0' xml:lang='en' xmlns='jabber:client' xmlns:stream='http://etherx.jabber.org/streams'>"
       /\ xml.noControl header = false
       /\ xml.startTag header = None).
Proof.
  split; [|split].
  - eexists. eexists. split; [reflexivity|].
    split; [vm_compute; reflexivity|]. split; [reflexivity|]. discriminate.
  - eexists. split; [reflexivity|]. vm_compute. reflexivity.
  - eexists. split; [reflexivity|]. split; [reflexivity|].
    split; vm_compute; reflexivity.
Qed.

(** C10. Of all the arguments of the nine writers only the body of
    MUCSend is escaped: the fragment a call puts on the wire is
    [fragment], where every other argument stands as it is.  For each of
    those arguments there is a call with a quote or an angle bracket in
    it whose fragment is not well-formed. *)
Theorem only_the_body_is_escaped c k w :
  hasSocket (outgoing c) = true -> writeFault w (outgoing c) = None ->
  (exists b w', perform c k w = Returns tt w'
      /\ wire w' = wire w ++ [(outgoing c, fragment k (fmt.hex b))])
  /\ Forall (fun bad => forall b, xml.tokens (fragment bad (fmt.hex b)) = None)
       unsafeCalls.
Proof.
  intros Hs Hf. split.
  - destruct (perform_writes c k w Hs Hf) as (b & w' & _ & Hrun & Hwire & _).
    eauto.
  - unfold unsafeCalls.
    repeat first [apply List.Forall_nil | apply List.Forall_cons].
    all: intros b;
      destruct (plainAttr_parts _ _ (hex_plain b)) as (Hi & _ & _ & Hcr);
      generalize dependent (fmt.hex b); intros i Hi Hcr.
    all: apply tokens_refused; [unfold fragment; nocr_pieces|].
    all: unfold xml.markup, fragment.
    all: repeat (rewrite run_app; lex_piece); try lex_piece; reflexivity.
Qed.

Lemma only_the_body_is_escaped_witness :
  (exists b w',
      perform (Sample.connOn None Sample.quiet)
        (callAuth "me" "<secret>" "home") Sample.quiet = Returns tt w'
      /\ wire w'
         = wire Sample.quiet
           ++ [(Sample.sock,
                fragment (callAuth "me" "<secret>" "home") (fmt.hex b))])
  /\ Forall (fun bad => forall b, xml.tokens (fragment bad (fmt.hex b)) = None)
       unsafeCalls.
Proof.
  apply (only_the_body_is_escaped (Sample.connOn None Sample.quiet));
    reflexivity.
Defined.

(** C4, as the code has it.  When the Write of a fire-and-forget call
    fails, the call sends the error on the error channel and waits for
    the send.  A channel that is installed and can take a value (a
    receiver is parked on it, or its buffer has room) gets the error and
    the call returns with nothing put on the wire.  On a full channel the
    call is parked until somebody receives.  With no channel installed
    the error is not dropped: the call is parked on the nil channel for
    good. *)
Theorem writers_send_the_error_on_the_channel c k w e :
  hasSocket (outgoing c) = true -> writeFault w (outgoing c) = Some e ->
  match errchan c with
  | Some i =>
      (accepts (chans w i) = true ->
       exists w', perform c k w = Returns tt w' /\ wire w' = wire w
                  /\ pushed e (chans w i) (chans w' i))
      /\ (full (chans w i) = true ->
          exists w', perform c k w = Blocks (onFullChannel i) w'
                     /\ wire w' = wire w /\ chans w' = chans w)
  | None =>
      exists w', perform c k w = Blocks onNilChannel w'
                 /\ wire w' = wire w /\ chans w' = chans w
  end.
Proof.
  intros Hs Hf.
  destruct (perform_fails c k w e Hs Hf) as (w1 & Hnet & ->).
  destruct Hnet as (Hwire & _ & _ & _ & _ & Hch).
  destruct (errchan c) as [i|].
  - split; intros Hi; rewrite <- Hch in Hi.
    + destruct (send_accepted i e w1 Hi) as (w' & Hsend & Hw & Hp).
      exists w'. rewrite Hch in Hp. rewrite Hw, Hwire. auto.
    + exists w1. rewrite (send_full i e w1 Hi). auto.
  - exists w1. auto.
Qed.

Lemma writers_send_the_error_on_the_channel_witness :
  (exists w',
      perform (Sample.connOn (Some 0) Sample.brokenBuffered)
        (callPresence "me@example.com" "away") Sample.brokenBuffered
      = Returns tt w'
      /\ wire w' = wire Sample.brokenBuffered
      /\ pushed Sample.brokenPipe (chans Sample.brokenBuffered 0) (chans w' 0))
  /\ (exists w',
        perform (Sample.connOn (Some 0) Sample.broken)
          (callAuth "me" "secret" "home") Sample.broken
        = Blocks (onFullChannel 0) w'
        /\ wire w' = wire Sample.broken /\ chans w' = chans Sample.broken)
  /\ (exists w',
        perform (Sample.connOn None Sample.broken)
          (callMUCSend "groupchat" "room@conf" "me@example.com" "hello")
          Sample.broken
        = Blocks onNilChannel w'
        /\ wire w' = wire Sample.broken /\ chans w' = chans Sample.broken).
Proof.
  split; [|split].
  - apply (proj1 (writers_send_the_error_on_the_channel
                    (Sample.connOn (Some 0) Sample.brokenBuffered)
                    (callPresence "me@example.com" "away") Sample.brokenBuffered
                    Sample.brokenPipe eq_refl eq_refl) eq_refl).
  - apply (proj2 (writers_send_the_error_on_the_channel
                    (Sample.connOn (Some 0) Sample.broken)
                    (callAuth "me" "secret" "home") Sample.broken
                    Sample.brokenPipe eq_refl eq_refl) eq_refl).
  - apply (writers_send_the_error_on_the_channel
             (Sample.connOn None Sample.broken)
             (callMUCSend "groupchat" "room@conf" "me@example.com" "hello")
             Sample.broken Sample.brokenPipe eq_refl eq_refl).
Defined.

(** C4 as stated fails.  With no error channel installed and a transport
    that refuses the write, Stream does not drop the error and return: it
    is parked on the nil channel, which nothing can ever wake.  With an
    unbuffered channel nobody receives from it is parked as well. *)
Lemma writers_drop_counterexample :
  Stream (Sample.connOn None Sample.broken) "me@example.com" "example.com"
    Sample.broken = Blocks onNilChannel Sample.broken
  /\ (forall w', Stream (Sample.connOn None Sample.broken) "me@example.com"
                   "example.com" Sample.broken <> Returns tt w')
  /\ Stream (Sample.connOn (Some 0) Sample.broken) "me@example.com" "example.com"
       Sample.broken = Blocks (onFullChannel 0) Sample.broken.
Proof.
  split; [reflexivity|]. split; [|reflexivity].
  intros w'. discriminate.
Qed.

End Writers.

(** ** The claims about readers *)

Module Readers.
Import xmpp ChannelFacts.

Definition noStart (ts : list xml.Token) : Prop :=
  Forall (fun t => xml.isStart t = false) ts.

(** One turn of the loop of Next is one call of Token. *)
Lemma nextFrom_Token d :
  nextFrom (decSource d) (decPending d) (decErr d)
  = match Token d with
    | (_, Some err, d') => ((xml.zeroStart, Some err), d')
    | (Some (xml.TStart element), None, d') =>
        if Str.is_empty (xml.Local (xml.ElemName element))
        then ((element, Some (errors_New "invalid xml response")), d')
        else ((element, None), d')
    | (_, None, d') => nextFrom (decSource d') (decPending d') (decErr d')
    end.
Proof.
  destruct d as [src [|t rest] err]; simpl; [reflexivity|].
  destruct t; reflexivity.
Qed.

Lemma nextFrom_skips src pre rest err :
  noStart pre -> nextFrom src (pre ++ rest) err = nextFrom src rest err.
Proof.
  induction 1 as [|t pre Ht _ IH]; simpl; [reflexivity|].
  destruct t; simpl in Ht; try discriminate; exact IH.
Qed.

Lemma nextFrom_never_nameless src pending err e d' :
  nextFrom src pending err = ((e, None), d') -> xml.Local (xml.ElemName e) <> "".
Proof.
  induction pending as [|t rest IH]; simpl; [discriminate|].
  destruct t; try exact IH.
  destruct (Str.is_empty (xml.Local (xml.ElemName e0))) eqn:Hn; [discriminate|].
  intros [= <- _] Heq. rewrite Heq in Hn. discriminate.
Qed.

(** With a decoder in place Next returns, in the world it was called in. *)
Lemma Next_returns c d w :
  incoming c = Some d -> exists e err c', Next c w = Returns ((e, err), c') w.
Proof.
  intros Hd. unfold Next. rewrite Hd.
  destruct (nextFrom _ _ _) as [[e' err'] d']. unfold ret. eauto.
Qed.

(** C2. Next skips every token that is not a start element and returns
    the first start element.  It returns an error when the stream ends
    in an error before any start element, or when that start element has
    an empty local name; it never returns a nameless element without an
    error.  With a decoder in place it always returns. *)
Theorem Next_returns_the_first_start_element c d w :
  incoming c = Some d ->
  (forall pre e post,
      decPending d = pre ++ xml.TStart e :: post -> noStart pre ->
      Next c w
      = Returns ((e, if Str.is_empty (xml.Local (xml.ElemName e))
                     then Some (errors_New "invalid xml response") else None),
                 advance c (mkDecoder (decSource d) post (decErr d))) w)
  /\ (noStart (decPending d) ->
      Next c w
      = Returns ((xml.zeroStart, Some (decErr d)),
                 advance c (mkDecoder (decSource d) [] (decErr d))) w)
  /\ (forall e c' w',
         Next c w = Returns ((e, None), c') w' -> xml.Local (xml.ElemName e) <> "")
  /\ (exists e err c', Next c w = Returns ((e, err), c') w).
Proof.
  intros Hd. unfold Next. rewrite Hd. repeat split.
  - intros pre e post Hp Hpre. rewrite Hp, nextFrom_skips by assumption.
    simpl. destruct (Str.is_empty _); reflexivity.
  - intros Hnone. rewrite <- (app_nil_r (decPending d)).
    rewrite nextFrom_skips by assumption. reflexivity.
  - intros e c' w'.
    destruct (nextFrom _ _ _) as [[e' err'] d'] eqn:Hn.
    unfold ret. intros [= -> -> _ _].
    eapply nextFrom_never_nameless, Hn.
  - destruct (nextFrom _ _ _) as [[e' err'] d']. unfold ret. eauto.
Qed.

Lemma Next_returns_the_first_start_element_witness :
  Next (Sample.connReading
          [xml.TCharData " "; xml.TComment "ping"; xml.TStart Sample.presenceStart;
           xml.TEnd (xml.mkName "" "presence")]) Sample.quiet
  = Returns ((Sample.presenceStart, None),
             Sample.connReading [xml.TEnd (xml.mkName "" "presence")])
      Sample.quiet
  /\ Next (Sample.connReading [xml.TCharData " "; xml.TStart Sample.namelessStart])
       Sample.quiet
     = Returns ((Sample.namelessStart, Some (errors_New "invalid xml response")),
                Sample.connReading []) Sample.quiet.
Proof.
  split.
  - apply (proj1 (Next_returns_the_first_start_element
                    (Sample.connReading
                       [xml.TCharData " "; xml.TComment "ping";
                        xml.TStart Sample.presenceStart;
                        xml.TEnd (xml.mkName "" "presence")])
                    _ Sample.quiet eq_refl)
             [xml.TCharData " "; xml.TComment "ping"] Sample.presenceStart
             [xml.TEnd (xml.mkName "" "presence")] eq_refl).
    repeat constructor.
  - apply (proj1 (Next_returns_the_first_start_element
                    (Sample.connReading
                       [xml.TCharData " "; xml.TStart Sample.namelessStart])
                    _ Sample.quiet eq_refl)
             [xml.TCharData " "] Sample.namelessStart [] eq_refl).
    repeat constructor.
Defined.

Lemma report_then_return {A} c err (a : A) w :
  (report c err ;; ret a) w
  = match err with
    | None => Returns a w
    | Some e =>
        match send (errchan c) e w with
        | Returns _ w' => Returns a w'
        | Blocks why w' => Blocks why w'
        | Panics w' => Panics w'
        end
    end.
Proof. destruct err; reflexivity. Qed.

Lemma report_viaChannel {A} c w (a : A) err d :
  viaChannel (report c err ;; ret (a, advance c d)) c w a err d.
Proof.
  unfold viaChannel. destruct err as [e|]; [|reflexivity].
  destruct (errchan c) as [i|] eqn:Hc.
  - intros Hi. destruct (send_accepted i e w Hi) as (w' & Hsend & _ & Hp).
    exists w'. rewrite report_then_return, Hc, Hsend. auto.
  - rewrite report_then_return, Hc. reflexivity.
Qed.

(** C3, as the code has it.  Next hands its error to the caller in its
    result and leaves the world, the error channel included, as it was.
    Features, Body and Query have no error result: whatever the
    unmarshaller, they return the value as the decode left it, and an
    error of the decode goes into the error channel on the way. *)
Theorem readers_hand_over_errors
    (Uf : Unmarshaler features) (Ub : Unmarshaler body) (Uq : Unmarshaler query)
    c d w :
  incoming c = Some d ->
  (exists e err c', Next c w = Returns ((e, err), c') w)
  /\ (forall f err d', DecodeElement zeroFeatures d = ((f, err), d') ->
                       viaChannel (Features c) c w f err d')
  /\ (forall b err d', DecodeElement zeroBody d = ((b, err), d') ->
                       viaChannel (Body c) c w (bBody b) err d')
  /\ (forall q err d', DecodeElement zeroQuery d = ((q, err), d') ->
                       viaChannel (Query c) c w q err d').
Proof.
  intros Hd. split; [|repeat split].
  - apply (Next_returns c d w Hd).
  - intros f err d' Hdec. unfold Features. rewrite Hd, Hdec.
    apply report_viaChannel.
  - intros b err d' Hdec. unfold Body. rewrite Hd, Hdec.
    apply (report_viaChannel c w (bBody b) err d').
  - intros q err d' Hdec. unfold Query. rewrite Hd, Hdec.
    apply report_viaChannel.
Qed.

Lemma readers_hand_over_errors_witness :
  exists w',
    @Features (Sample.skipping features) (Sample.connOn (Some 0) Sample.buffered)
      Sample.buffered
    = Returns (zeroFeatures, Sample.connOn (Some 0) Sample.buffered) w'
    /\ pushed io.EOF (chans Sample.buffered 0) (chans w' 0).
Proof.
  apply (proj1 (proj2 (readers_hand_over_errors
                         (Sample.skipping features) (Sample.skipping body)
                         (Sample.skipping query)
                         (Sample.connOn (Some 0) Sample.buffered)
                         (NewDecoder Sample.sock Sample.buffered)
                         Sample.buffered eq_refl))
           zeroFeatures (Some io.EOF) (NewDecoder Sample.sock Sample.buffered)
           eq_refl eq_refl).
Defined.

(** C3 as stated fails for the typed reads.  On a stream that has ended,
    Features, Body and Query return their zero value and nothing else to
    the caller; the EOF of the decode is found in the buffer of the error
    channel afterwards. *)
Lemma readers_return_errors_counterexample :
  (exists w',
      @Features (Sample.skipping features) (Sample.connOn (Some 0) Sample.buffered)
        Sample.buffered
      = Returns (zeroFeatures, Sample.connOn (Some 0) Sample.buffered) w'
      /\ chBuf (chans Sample.buffered 0) = []
      /\ chBuf (chans w' 0) = [io.EOF])
  /\ (exists w',
        @Body (Sample.skipping body) (Sample.connOn (Some 0) Sample.buffered)
          Sample.buffered
        = Returns (EmptyString, Sample.connOn (Some 0) Sample.buffered) w'
        /\ chBuf (chans w' 0) = [io.EOF])
  /\ (exists w',
        @Query (Sample.skipping query) (Sample.connOn (Some 0) Sample.buffered)
          Sample.buffered
        = Returns (zeroQuery, Sample.connOn (Some 0) Sample.buffered) w'
        /\ chBuf (chans w' 0) = [io.EOF]).
Proof.
  repeat split; eexists; (split; [reflexivity|]); repeat split; reflexivity.
Qed.

End Readers.

(** ** Keepalive, dialling and the TLS upgrade *)

Module Lifecycle.
Import xmpp ChannelFacts.

(** C5. KeepAlive writes the single byte of a space.  When the Write
    succeeds it returns nil and that byte is on the wire; when it fails
    it returns the error of the Write to its caller, in the world it was
    called in, so nothing went near the error channel. *)
Theorem KeepAlive_returns_its_error c w :
  hasSocket (outgoing c) = true ->
  (writeFault w (outgoing c) = None ->
   KeepAlive c w = Returns None (setWire (wire w ++ [(outgoing c, " ")]) w))
  /\ (forall e, writeFault w (outgoing c) = Some e ->
                KeepAlive c w = Returns (Some e) w)
  /\ String.length " " = 1.
Proof.
  intros Hs. unfold KeepAlive, Fprintf, bind. repeat split.
  - intros Hf. rewrite write_ok by assumption. reflexivity.
  - intros e Hf. rewrite (write_fails _ _ _ e) by assumption. reflexivity.
Qed.

Lemma KeepAlive_returns_its_error_witness :
  KeepAlive (Sample.connOn (Some 0) Sample.brokenBuffered) Sample.brokenBuffered
  = Returns (Some Sample.brokenPipe) Sample.brokenBuffered
  /\ KeepAlive (Sample.connOn None Sample.quiet) Sample.quiet
     = Returns None (setWire [(Sample.sock, " ")] Sample.quiet).
Proof.
  split.
  - apply (proj1 (proj2 (KeepAlive_returns_its_error
                           (Sample.connOn (Some 0) Sample.brokenBuffered)
                           Sample.brokenBuffered eq_refl))
             Sample.brokenPipe eq_refl).
  - apply (proj1 (KeepAlive_returns_its_error
                    (Sample.connOn None Sample.quiet) Sample.quiet eq_refl)
             eq_refl).
Defined.



Lemma tlsClient_is_new under host : tlsClient under host <> under.
Proof.
  revert host. induction under as [| |under IH host']; intros host;
    try discriminate.
  intros [= H _]. exact (IH _ H).
Qed.

(** C9. After UseTLS the connection writes to the TLS client wrapped
    around its former transport with the host as server name, and its
    decoder is a new one reading from that same TLS client; neither is
    the transport from before the upgrade. *)
Theorem UseTLS_rebinds_both_sides c host w :
  let c' := UseTLS c host w in
  outgoing c' = tlsClient (outgoing c) host
  /\ incoming c' = Some (NewDecoder (outgoing c') w)
  /\ (forall d, incoming c' = Some d ->
                decSource d = outgoing c' /\ decSource d <> outgoing c)
  /\ outgoing c' <> outgoing c
  /\ errchan c' = errchan c.
Proof.
  cbv zeta. unfold UseTLS. simpl.
  split; [reflexivity|]. split; [reflexivity|].
  split; [|split; [apply tlsClient_is_new | reflexivity]].
  intros d [= <-]. split; [reflexivity | apply tlsClient_is_new].
Qed.

End Lifecycle.

(** ** ToMap *)

Module Maps.
Import xml xmpp Expect.

Lemma foldl_lookup (attr : list Attr) (m : gmap string string) (k : string) :
  foldl (fun m a => <[Local (AttrName a) := Value a]> m) m attr !! k
  = match lastValue k attr with
    | Some v => Some v
    | None => m !! k
    end.
Proof.
  revert m. induction attr as [|a rest IH]; intros m; simpl; [reflexivity|].
  rewrite IH. destruct (lastValue k rest); [reflexivity|].
  case_bool_decide as Hk.
  - rewrite Hk. apply lookup_insert_eq.
  - now apply lookup_insert_ne.
Qed.

(** A lookup in the map gives the value of the last attribute of that
    local name. *)
Lemma ToMap_lookup (attr : list Attr) (k : string) :
  ToMap attr !! k = lastValue k attr.
Proof.
  unfold ToMap. rewrite foldl_lookup, lookup_empty.
  now destruct (lastValue k attr).
Qed.

Lemma lastValue_none (k : string) (attr : list Attr) :
  lastValue k attr = None <-> forall a, a ∈ attr -> local a <> k.
Proof.
  induction attr as [|a rest IH]; simpl.
  - split; [|reflexivity]. intros _ a Ha. inversion Ha.
  - destruct (lastValue k rest) eqn:Hr.
    + split; [discriminate|]. intros H.
      assert (Some s = None) as Habs; [|discriminate].
      apply IH. intros b Hb. apply H. now right.
    + case_bool_decide as Hk.
      * split; [discriminate|]. intros H. exfalso. apply (H a); [left|exact Hk].
      * split; [|reflexivity]. intros _ b Hb.
        apply elem_of_cons in Hb as [->|Hb]; [exact Hk|].
        now apply (proj1 IH).
Qed.

Lemma lastValue_perm (k : string) (attr attr' : list Attr) :
  attr ≡ₚ attr' -> NoDup (local <$> attr) -> lastValue k attr = lastValue k attr'.
Proof.
  induction 1 as [|a l l' Hp IH|a b l|l1 l2 l3 H12 IH12 H23 IH23]; intros Hnd.
  - reflexivity.
  - simpl. rewrite IH; [reflexivity|]. now apply NoDup_cons in Hnd as [_ ?].
  - simpl. destruct (lastValue k l); [reflexivity|].
    repeat case_bool_decide; try reflexivity.
    exfalso. apply NoDup_cons in Hnd as [Hnotin _].
    apply Hnotin. apply elem_of_cons. left. unfold local. congruence.
  - rewrite IH12 by assumption. apply IH23. now rewrite <- H12.
Qed.

(** C8. When no local name occurs twice, every reordering of the
    attributes gives the same map; and when a local name does occur more
    than once, the map holds the value of its last occurrence. *)
Theorem ToMap_order_and_last_wins :
  (forall attr attr' : list Attr,
      NoDup (local <$> attr) -> attr ≡ₚ attr' -> ToMap attr = ToMap attr')
  /\ (forall (pre post : list Attr) (a : Attr),
         (forall b, b ∈ post -> local b <> local a) ->
         ToMap (pre ++ a :: post) !! local a = Some (Value a)).
Proof.
  split.
  - intros attr attr' Hnd Hp. apply map_eq. intros k.
    rewrite !ToMap_lookup. now apply lastValue_perm.
  - intros pre post a Hpost. rewrite ToMap_lookup.
    induction pre as [|p pre IH]; simpl.
    + rewrite (proj2 (lastValue_none (local a) post) Hpost).
      unfold local. now rewrite bool_decide_eq_true_2.
    + now rewrite IH.
Qed.

Lemma ToMap_order_and_last_wins_witness :
  ToMap [attr "from" "a@b"; attr "to" "c@d"; attr "type" "chat"]
  = ToMap [attr "to" "c@d"; attr "type" "chat"; attr "from" "a@b"]
  /\ ToMap ([attr "id" "1"; attr "type" "chat"] ++ attr "id" "2" :: [attr "to" "c@d"])
     !! local (attr "id" "2") = Some (Value (attr "id" "2")).
Proof.
  split.
  - apply (proj1 ToMap_order_and_last_wins).
    + apply (bool_decide_unpack _). vm_compute. exact I.
    + apply (Permutation_cons_append [_; _]).
  - apply (proj2 ToMap_order_and_last_wins).
    intros b Hb. apply list_elem_of_singleton in Hb as ->. discriminate.
Defined.

End Maps.

(** ** Request ids *)

Module Ids.
Import xmpp WriterFacts.

Lemma hex_length s : String.length (fmt.hex s) = 2 * String.length s.
Proof. induction s as [|c s IH]; simpl; [reflexivity | rewrite IH; lia]. Qed.

Lemma hex_byte_lower c : Str.all isLowerHex (fmt.hex (String c "")) = true.
Proof. destruct c as [[] [] [] [] [] [] [] []]; vm_compute; reflexivity. Qed.

Lemma hex_lower s : Str.all isLowerHex (fmt.hex s) = true.
Proof.
  induction s as [|c s IH]; [reflexivity|].
  change (fmt.hex (String c s)) with (fmt.hex (String c "") +:+ fmt.hex s).
  now rewrite StrFacts.all_app, hex_byte_lower, IH.
Qed.

Lemma unhex_byte c :
  unhex (fmt.hex (String c "")) = String c "".
Proof. destruct c as [[] [] [] [] [] [] [] []]; vm_compute; reflexivity. Qed.

Lemma unhex_hex s : unhex (fmt.hex s) = s.
Proof.
  induction s as [|c s IH]; [reflexivity|].
  pose proof (unhex_byte c) as Hc. simpl in *. rewrite IH.
  now injection Hc as ->.
Qed.

(** Distinct bytes print as distinct hexadecimal text. *)
Lemma hex_inj a b : fmt.hex a = fmt.hex b -> a = b.
Proof. intros H. rewrite <- (unhex_hex a), <- (unhex_hex b). now rewrite H. Qed.

(** X1. id always returns, whatever the state of the random source: its
    result is sixteen lower-case hexadecimal digits, and it leaves the
    wire, the transports and the channels as they were. *)
Theorem id_is_sixteen_hex_digits w :
  exists i w', id w = Returns i w' /\ String.length i = 16
               /\ Str.all isLowerHex i = true /\ sameNet w w'.
Proof.
  destruct (id_returns w) as (b & w' & Hid & Hnet & Hlen).
  exists (fmt.hex b), w'. split; [exact Hid|].
  split; [rewrite hex_length, Hlen; reflexivity|].
  split; [apply hex_lower | exact Hnet].
Qed.

Lemma take_short n s : String.length s <= n -> Str.take n s = s.
Proof.
  revert s. induction n as [|n IH]; intros [|c s]; simpl; try reflexivity; try lia.
  intros H. rewrite IH by lia. reflexivity.
Qed.

Lemma drop_short n s : String.length s <= n -> Str.drop n s = "".
Proof.
  revert s. induction n as [|n IH]; intros [|c s]; simpl; try reflexivity; try lia.
  intros H. apply IH. lia.
Qed.

Lemma take_length n s : n <= String.length s -> String.length (Str.take n s) = n.
Proof.
  revert s. induction n as [|n IH]; intros [|c s]; simpl; try reflexivity; try lia.
  intros H. rewrite IH by lia. reflexivity.
Qed.

Lemma sprintf_error text :
  fmt.Sprintf "error generating id: %s" [text] = "error generating id: " +:+ text.
Proof.
  unfold fmt.Sprintf. simpl. now rewrite !StrFacts.app_nil_r.
Qed.

Lemma id_with_eight_bytes w :
  8 <= String.length (entropy w) ->
  id w = Returns (fmt.hex (Str.take 8 (entropy w)))
           (setEntropy (Str.drop 8 (entropy w)) (stdout w) w).
Proof.
  intros Hlen. unfold id, readRandom.
  rewrite take_length by assumption.
  rewrite bool_decide_eq_true_2 by reflexivity.
  rewrite sprintf_hex. simpl. now rewrite StrFacts.app_nil_r.
Qed.

Lemma drop_length n s : String.length (Str.drop n s) = String.length s - n.
Proof.
  revert s. induction n as [|n IH]; intros [|c s]; simpl; try reflexivity; try lia.
  apply IH.
Qed.

(** X2. A random source that cannot fill the eight bytes does not stop
    id.  With eight bytes at hand the id is their hexadecimal text and
    nothing is printed.  With fewer, the bytes that are missing stay zero,
    the id is still returned, and a line starting with
    [error generating id: ] goes to standard output, followed by the text
    of the read error. *)
Theorem id_with_a_failing_random_source w :
  (8 <= String.length (entropy w) ->
   id w = Returns (fmt.hex (Str.take 8 (entropy w)))
            (setEntropy (Str.drop 8 (entropy w)) (stdout w) w))
  /\ (String.length (entropy w) < 8 ->
      id w = Returns
               (fmt.hex (entropy w
                         +:+ Str.replicate (8 - String.length (entropy w))
                               (ascii_of_N 0)))
               (setEntropy ""
                  (stdout w +:+ "error generating id: "
                   +:+ Error (if bool_decide (String.length (entropy w) = 0)
                              then io.EOF else io.ErrUnexpectedEOF))
                  w)).
Proof.
  split; intros Hlen; [now apply id_with_eight_bytes|].
  unfold id, readRandom.
  - rewrite take_short, drop_short by lia.
    rewrite bool_decide_eq_false_2 by lia.
    rewrite sprintf_hex.
    case_bool_decide; rewrite sprintf_error; reflexivity.
Qed.

(** X3. Two ids drawn one after the other are the hexadecimal text of
    the first and of the second eight random bytes; they are the same id
    exactly when those two groups of bytes are the same. *)
Theorem consecutive_ids w :
  16 <= String.length (entropy w) ->
  let b1 := Str.take 8 (entropy w) in
  let b2 := Str.take 8 (Str.drop 8 (entropy w)) in
  (i1 <- id ;; i2 <- id ;; ret (i1, i2)) w
  = Returns (fmt.hex b1, fmt.hex b2)
      (setEntropy (Str.drop 8 (Str.drop 8 (entropy w))) (stdout w) w)
  /\ (fmt.hex b1 = fmt.hex b2 <-> b1 = b2).
Proof.
  intros Hlen b1 b2. split.
  - unfold bind. rewrite (id_with_eight_bytes w) by lia.
    rewrite id_with_eight_bytes;
      [reflexivity | cbn [entropy setEntropy]; rewrite drop_length; lia].
  - split; [apply hex_inj | now intros ->].
Qed.

Lemma consecutive_ids_witness :
  (i1 <- id ;; i2 <- id ;; ret (i1, i2)) Sample.quiet
  = Returns (fmt.hex "01234567", fmt.hex "89abcdef")
      (setEntropy "ghijklmnopqrstuv" "" Sample.quiet)
  /\ (fmt.hex "01234567" = fmt.hex "89abcdef" <-> "01234567" = "89abcdef").
Proof.
  apply (consecutive_ids Sample.quiet). simpl. lia.
Defined.

End Ids.

(** ** The stanzas of the other writers *)

Module Stanzas.
Import xmpp xml LexFacts FragmentFacts WriterFacts ChannelFacts Stanza.

















End Stanzas.

(** ** Connections across calls *)

Module Sessions.
Import xmpp WriterFacts ChannelFacts Stanza.

(** A call whose Write succeeds changes the wire and nothing else of the
    network. *)
Lemma perform_appends c k w :
  hasSocket (outgoing c) = true -> writeFault w (outgoing c) = None ->
  exists b w', perform c k w = Returns tt w'
    /\ wire w' = wire w ++ [(outgoing c, fragment k (fmt.hex b))]
    /\ writeFault w' = writeFault w /\ chans w' = chans w /\ feed w' = feed w.
Proof.
  intros Hs Hf.
  destruct (perform_shape c k w) as (b & w1 & Hnet & Hlen & ->).
  destruct Hnet as (Hwire & Hfault & Hfeed & _ & _ & Hch).
  exists b. eexists. unfold bind.
  rewrite write_ok by (rewrite ?Hfault; assumption).
  simpl. unfold ret. split; [reflexivity|]. simpl. rewrite Hwire. auto.
Qed.

(** X7. Writer calls reach the wire in the order they were made, one
    fragment each, all on the transport of the connection; as long as the
    writes succeed the error channel is never touched, installed or
    not. *)
Theorem fragments_reach_the_wire_in_call_order c ks w :
  hasSocket (outgoing c) = true -> writeFault w (outgoing c) = None ->
  exists ids w',
    performAll c ks w = Returns tt w'
    /\ length ids = length ks
    /\ wire w'
       = wire w ++ zip_with (fun k b => (outgoing c, fragment k (fmt.hex b))) ks ids
    /\ chans w' = chans w.
Proof.
  intros Hs. revert w. induction ks as [|k ks IH]; intros w Hf.
  - exists [], w. simpl. rewrite app_nil_r. auto.
  - destruct (perform_appends c k w Hs Hf) as (b & w1 & Hk & Hw1 & Hf1 & Hc1 & _).
    destruct (IH w1) as (ids & w' & Hrest & Hlen & Hw' & Hc'); [congruence|].
    exists (b :: ids), w'. simpl. unfold bind. rewrite Hk.
    split; [exact Hrest|]. split; [now rewrite Hlen|].
    split; [|congruence].
    rewrite Hw', Hw1, <- app_assoc. reflexivity.
Qed.

Lemma fragments_reach_the_wire_in_call_order_witness :
  exists ids w',
    performAll (Sample.connOn None Sample.quiet)
      [callStream "me@example.com" "example.com"; callStartTLS;
       callAuth "me" "secret" "home"; callPresence "me@example.com" "chat"]
      Sample.quiet = Returns tt w'
    /\ length ids = 4
    /\ wire w'
       = wire Sample.quiet
         ++ zip_with (fun k b => (Sample.sock, fragment k (fmt.hex b)))
              [callStream "me@example.com" "example.com"; callStartTLS;
               callAuth "me" "secret" "home"; callPresence "me@example.com" "chat"]
              ids
    /\ chans w' = chans Sample.quiet.
Proof.
  apply (fragments_reach_the_wire_in_call_order (Sample.connOn None Sample.quiet));
    reflexivity.
Defined.

(** X8. The TLS upgrade splits the wire.  StartTLS puts the empty
    starttls element of the TLS namespace on the transport the connection
    has; a call made on the connection after UseTLS puts its fragment on
    the TLS client around that transport, and nothing more goes to the
    bare transport. *)
Theorem StartTLS_then_UseTLS c host k w :
  hasSocket (outgoing c) = true -> writeFault w (outgoing c) = None ->
  writeFault w (tlsClient (outgoing c) host) = None ->
  exists b w1 w2,
    StartTLS c w = Returns tt w1
    /\ perform (UseTLS c host w1) k w1 = Returns tt w2
    /\ wire w2
       = wire w ++ [(outgoing c, "<starttls xmlns='urn:ietf:params:xml:ns:xmpp-tls'/>");
                    (tlsClient (outgoing c) host, fragment k (fmt.hex b))]
    /\ xml.tokens "<starttls xmlns='urn:ietf:params:xml:ns:xmpp-tls'/>"
       = Some startTLSTokens
    /\ xml.isElement startTLSTokens = true.
Proof.
  intros Hs Hf Hft.
  destruct (perform_appends c callStartTLS w Hs Hf)
    as (b0 & w1 & H1 & Hw1 & Hf1 & _ & _).
  destruct (perform_appends (UseTLS c host w1) k w1) as (b & w2 & H2 & Hw2 & _).
  { exact Hs. } { simpl. now rewrite Hf1. }
  exists b, w1, w2. split; [exact H1|]. split; [exact H2|].
  split; [|split; reflexivity].
  rewrite Hw2, Hw1, <- app_assoc. reflexivity.
Qed.

Lemma StartTLS_then_UseTLS_witness :
  exists b w1 w2,
    StartTLS (Sample.connOn None Sample.quiet) Sample.quiet = Returns tt w1
    /\ perform (UseTLS (Sample.connOn None Sample.quiet) "chat.example.com" w1)
         (callStream "me@example.com" "example.com") w1 = Returns tt w2
    /\ wire w2
       = wire Sample.quiet
         ++ [(Sample.sock, "<starttls xmlns='urn:ietf:params:xml:ns:xmpp-tls'/>");
             (tlsClient Sample.sock "chat.example.com",
              fragment (callStream "me@example.com" "example.com") (fmt.hex b))]
    /\ xml.tokens "<starttls xmlns='urn:ietf:params:xml:ns:xmpp-tls'/>"
       = Some startTLSTokens
    /\ xml.isElement startTLSTokens = true.
Proof.
  apply (StartTLS_then_UseTLS (Sample.connOn None Sample.quiet));
    reflexivity.
Defined.

(** X9. SetErrorChannel changes the channel and nothing else, and the
    channel set last is the one that counts: a writer whose Write fails
    sends the error on it, whatever channel the connection had before.
    A channel that can take a value gets the error and the call returns;
    setting the nil channel makes such a call wait for ever. *)
Theorem SetErrorChannel_decides_where_errors_go c ch k w e :
  hasSocket (outgoing c) = true -> writeFault w (outgoing c) = Some e ->
  let c' := SetErrorChannel c ch in
  incoming c' = incoming c /\ outgoing c' = outgoing c /\ errchan c' = ch
  /\ match ch with
     | Some i =>
         accepts (chans w i) = true ->
         exists w', perform c' k w = Returns tt w'
                    /\ pushed e (chans w i) (chans w' i)
                    /\ (forall j, j <> i -> chans w' j = chans w j)
     | None => exists w', perform c' k w = Blocks onNilChannel w'
     end.
Proof.
  intros Hs Hf c'. split; [reflexivity|]. split; [reflexivity|].
  split; [reflexivity|].
  destruct (Writers.perform_fails c' k w e Hs Hf) as (w1 & Hnet & ->).
  destruct Hnet as (_ & _ & _ & _ & _ & Hch). simpl.
  destruct ch as [i|]; [|eauto].
  intros Hi. rewrite <- Hch in Hi.
  unfold send. unfold accepts in Hi. apply andb_prop in Hi as [Hopen Hroom].
  destruct (chClosed (chans w1 i)); [discriminate|].
  case_bool_decide as Hr.
  - eexists. split; [reflexivity|]. simpl. split.
    + left. rewrite fn_lookup_insert, <- Hch. simpl. auto.
    + intros j Hj. rewrite fn_lookup_insert_ne by congruence. now rewrite Hch.
  - simpl in Hroom. rewrite Hroom.
    eexists. split; [reflexivity|]. simpl. split.
    + right. rewrite fn_lookup_insert, <- Hch. simpl. auto.
    + intros j Hj. rewrite fn_lookup_insert_ne by congruence. now rewrite Hch.
Qed.

Lemma SetErrorChannel_decides_where_errors_go_witness :
  exists w',
    perform (SetErrorChannel (Sample.connOn (Some 7) Sample.brokenBuffered) (Some 0))
      (callMUCPart "room@conf/nick") Sample.brokenBuffered = Returns tt w'
    /\ pushed Sample.brokenPipe (chans Sample.brokenBuffered 0) (chans w' 0)
    /\ (forall j, j <> 0 -> chans w' j = chans Sample.brokenBuffered j).
Proof.
  apply (SetErrorChannel_decides_where_errors_go
           (Sample.connOn (Some 7) Sample.brokenBuffered) (Some 0)
           (callMUCPart "room@conf/nick") Sample.brokenBuffered Sample.brokenPipe
           eq_refl eq_refl).
  reflexivity.
Defined.

(** X10. The connection a failed Dial returns must not be used.  It is
    the zero connection: every writer, KeepAlive, Next and every typed
    read on it panics on the nil transport or the nil decoder, and
    nothing reaches a wire or a channel. *)
Theorem the_connection_of_a_failed_Dial_panics host w c e w' :
  Dial host w = ((Some c, Some e), w') ->
  w' = w
  /\ (forall k w0, exists w1, perform c k w0 = Panics w1 /\ sameNet w0 w1)
  /\ (forall w0, KeepAlive c w0 = Panics w0)
  /\ (forall w0, Next c w0 = Panics w0)
  /\ (forall (U : Unmarshaler features) w0, Features c w0 = Panics w0)
  /\ (forall (U : Unmarshaler body) w0, Body c w0 = Panics w0)
  /\ (forall (U : Unmarshaler query) w0, Query c w0 = Panics w0).
Proof.
  unfold Dial, net_Dial.
  destruct (dialFault w "tcp" (host +:+ ":5222")) as [e'|]; [|discriminate].
  intros [= <- <- <-]. split; [reflexivity|].
  split; [|repeat split].
  intros k w0. destruct (perform_shape zeroConn k w0) as (b & w1 & Hnet & _ & ->).
  exists w1. split; [reflexivity | exact Hnet].
Qed.

Lemma the_connection_of_a_failed_Dial_panics_witness :
  Sample.unreachable = Sample.unreachable
  /\ (forall k w0, exists w1, perform zeroConn k w0 = Panics w1 /\ sameNet w0 w1)
  /\ (forall w0, KeepAlive zeroConn w0 = Panics w0)
  /\ (forall w0, Next zeroConn w0 = Panics w0)
  /\ (forall (U : Unmarshaler features) w0, Features zeroConn w0 = Panics w0)
  /\ (forall (U : Unmarshaler body) w0, Body zeroConn w0 = Panics w0)
  /\ (forall (U : Unmarshaler query) w0, Query zeroConn w0 = Panics w0).
Proof.
  apply (the_connection_of_a_failed_Dial_panics "chat.example.com"
           Sample.unreachable zeroConn Sample.refused Sample.unreachable eq_refl).
Defined.

(** X18. A connection fresh from Dial has a socket and no error
    channel.  Until SetErrorChannel is called, a writer whose Write fails
    on it is parked on the nil channel for good, while KeepAlive returns
    the error of the same failure to its caller. *)
Theorem a_fresh_connection_has_no_error_channel host w c w' :
  Dial host w = ((Some c, None), w') ->
  errchan c = None /\ hasSocket (outgoing c) = true
  /\ (forall k e w0, writeFault w0 (outgoing c) = Some e ->
         (exists w1, perform c k w0 = Blocks onNilChannel w1 /\ sameNet w0 w1)
         /\ KeepAlive c w0 = Returns (Some e) w0).
Proof.
  unfold Dial, net_Dial.
  destruct (dialFault w "tcp" (host +:+ ":5222")) as [e'|]; [discriminate|].
  intros [= <- <-]. split; [reflexivity|]. split; [reflexivity|].
  intros k e w0 Hf. split.
  - match type of Hf with
    | writeFault _ (outgoing ?c) = _ =>
        destruct (Writers.perform_fails c k w0 e eq_refl Hf) as (w1 & Hnet & ->)
    end.
    exists w1. split; [reflexivity | exact Hnet].
  - unfold KeepAlive, Fprintf, bind.
    rewrite (write_fails _ _ _ e) by (reflexivity || assumption). reflexivity.
Qed.

Lemma a_fresh_connection_has_no_error_channel_witness :
  errchan (mkConn (Some (NewDecoder (tcpConn 4 "chat.example.com:5222")
                           (setNextFd 5 Sample.quiet)))
             (tcpConn 4 "chat.example.com:5222") None) = None
  /\ hasSocket (tcpConn 4 "chat.example.com:5222") = true
  /\ (forall k e w0,
         writeFault w0 (tcpConn 4 "chat.example.com:5222") = Some e ->
         (exists w1,
             perform (mkConn (Some (NewDecoder (tcpConn 4 "chat.example.com:5222")
                                      (setNextFd 5 Sample.quiet)))
                        (tcpConn 4 "chat.example.com:5222") None) k w0
             = Blocks onNilChannel w1 /\ sameNet w0 w1)
         /\ KeepAlive (mkConn (Some (NewDecoder (tcpConn 4 "chat.example.com:5222")
                                       (setNextFd 5 Sample.quiet)))
                         (tcpConn 4 "chat.example.com:5222") None) w0
            = Returns (Some e) w0).
Proof.
  apply (a_fresh_connection_has_no_error_channel "chat.example.com" Sample.quiet
           _ _ eq_refl).
Defined.

End Sessions.

(** ** Reading across calls *)

Module Reading.
Import xmpp Readers.

(** One call of Next, by the start elements still to come. *)
Lemma nextFrom_starts src pending err :
  exists rest,
    starts rest = tail (starts pending)
    /\ nextFrom src pending err
       = (match starts pending with
          | e :: _ => nextResult e
          | [] => (xml.zeroStart, Some err)
          end, mkDecoder src rest err).
Proof.
  induction pending as [|t pending IH]; simpl.
  - exists []. auto.
  - destruct t; try exact IH.
    exists pending. simpl. split; [reflexivity|].
    unfold nextResult. destruct (Str.is_empty _); reflexivity.
Qed.

(** X11. Calling Next again and again walks through the start elements
    of the stream in order: n calls return the first n start elements,
    each with a nil error, or with the invalid-xml error if its local
    name is empty, and a call like that does not stop the ones after it.
    Once the start elements are used up every further call returns the
    zero element and the error the stream ended with, the same one each
    time. *)
Theorem Next_walks_through_the_start_elements n c d w :
  incoming c = Some d ->
  exists c',
    nextMany n c w
    = Returns (map nextResult (take n (starts (decPending d)))
               ++ replicate (n - length (starts (decPending d)))
                    (xml.zeroStart, Some (decErr d)),
               c') w.
Proof.
  revert c d. induction n as [|n IH]; intros c d Hd.
  - exists c. reflexivity.
  - simpl. unfold bind at 1. unfold Next. rewrite Hd.
    destruct (nextFrom_starts (decSource d) (decPending d) (decErr d))
      as (rest & Hrest & ->).
    unfold ret at 1. cbn [snd fst].
    destruct (IH (advance c (mkDecoder (decSource d) rest (decErr d)))
                (mkDecoder (decSource d) rest (decErr d)) eq_refl) as (c' & Hn).
    exists c'. unfold advance in Hn. cbn [decPending decErr] in Hn.
    rewrite Hrest in Hn. unfold bind. rewrite Hn. unfold ret. cbn [fst snd].
    destruct (starts (decPending d)) as [|e es]; simpl.
    + rewrite take_nil, Nat.sub_0_r. reflexivity.
    + reflexivity.
Qed.

Lemma Next_walks_through_the_start_elements_witness :
  exists c',
    nextMany 4
      (Sample.connReading
         [xml.TCharData " "; xml.TStart Sample.presenceStart;
          xml.TEnd (xml.mkName "" "presence"); xml.TStart Sample.namelessStart;
          xml.TStart Sample.presenceStart])
      Sample.quiet
    = Returns ([(Sample.presenceStart, None);
                (Sample.namelessStart, Some (errors_New "invalid xml response"));
                (Sample.presenceStart, None);
                (xml.zeroStart, Some io.EOF)], c') Sample.quiet.
Proof.
  apply (Next_walks_through_the_start_elements 4
           (Sample.connReading
              [xml.TCharData " "; xml.TStart Sample.presenceStart;
               xml.TEnd (xml.mkName "" "presence"); xml.TStart Sample.namelessStart;
               xml.TStart Sample.presenceStart])
           _ Sample.quiet eq_refl).
Defined.

Lemma decodeFrom_skips {T} `{Unmarshaler T} (v : T) src pre rest err :
  noStart pre -> decodeFrom v src (pre ++ rest) err = decodeFrom v src rest err.
Proof.
  induction 1 as [|t pre Ht _ IH]; simpl; [reflexivity|].
  destruct t; simpl in Ht; try discriminate; exact IH.
Qed.

(** X12. A typed read after Next does not decode the element Next
    returned.  Next has taken that start element off the stream, so
    Features, Body and Query skip to the first start element after it and
    hand that one to the unmarshaller, together with the stream behind
    it; their error, if any, goes the way of the error channel. *)
Theorem a_typed_read_after_Next_decodes_the_following_element
    (Uf : Unmarshaler features) (Ub : Unmarshaler body) (Uq : Unmarshaler query)
    c d w pre e mid e' post :
  incoming c = Some d ->
  decPending d = pre ++ xml.TStart e :: mid ++ xml.TStart e' :: post ->
  noStart pre -> noStart mid ->
  let behind := mkDecoder (decSource d) post (decErr d) in
  exists c1,
    Next c w = Returns (nextResult e, c1) w
    /\ (forall f err d', unmarshal zeroFeatures e' behind = ((f, err), d') ->
                         viaChannel (Features c1) c w f err d')
    /\ (forall b err d', unmarshal zeroBody e' behind = ((b, err), d') ->
                         viaChannel (Body c1) c w (bBody b) err d')
    /\ (forall q err d', unmarshal zeroQuery e' behind = ((q, err), d') ->
                         viaChannel (Query c1) c w q err d').
Proof.
  intros Hd Hp Hpre Hmid behind.
  exists (advance c (mkDecoder (decSource d)
                      (mid ++ xml.TStart e' :: post) (decErr d))).
  split.
  - unfold Next. rewrite Hd, Hp, nextFrom_skips by assumption. simpl.
    unfold nextResult. destruct (Str.is_empty _); reflexivity.
  - repeat split.
    + intros f err d' Hu. unfold Features, DecodeElement. simpl.
      rewrite decodeFrom_skips by assumption. simpl.
      fold behind. rewrite Hu. apply (report_viaChannel c w f err d').
    + intros b err d' Hu. unfold Body, DecodeElement. simpl.
      rewrite decodeFrom_skips by assumption. simpl.
      fold behind. rewrite Hu. apply (report_viaChannel c w (bBody b) err d').
    + intros q err d' Hu. unfold Query, DecodeElement. simpl.
      rewrite decodeFrom_skips by assumption. simpl.
      fold behind. rewrite Hu. apply (report_viaChannel c w q err d').
Qed.

Lemma a_typed_read_after_Next_decodes_the_following_element_witness :
  exists c1,
    Next (Sample.connReading Sample2.iqResult) Sample.quiet
    = Returns (nextResult Sample2.iqStart, c1) Sample.quiet
    /\ (forall f err d',
           @unmarshal _ (Sample.skipping features) zeroFeatures Sample2.queryStart
             (mkDecoder Sample.sock [xml.TEnd (xml.mkName "" "query");
                                     xml.TEnd (xml.mkName "" "iq")] io.EOF)
           = ((f, err), d') ->
           viaChannel (@Features (Sample.skipping features) c1)
             (Sample.connReading Sample2.iqResult) Sample.quiet f err d')
    /\ (forall b err d',
           @unmarshal _ (Sample.skipping body) zeroBody Sample2.queryStart
             (mkDecoder Sample.sock [xml.TEnd (xml.mkName "" "query");
                                     xml.TEnd (xml.mkName "" "iq")] io.EOF)
           = ((b, err), d') ->
           viaChannel (@Body (Sample.skipping body) c1)
             (Sample.connReading Sample2.iqResult) Sample.quiet (bBody b) err d')
    /\ (forall q err d',
           @unmarshal _ (Sample.skipping query) zeroQuery Sample2.queryStart
             (mkDecoder Sample.sock [xml.TEnd (xml.mkName "" "query");
                                     xml.TEnd (xml.mkName "" "iq")] io.EOF)
           = ((q, err), d') ->
           viaChannel (@Query (Sample.skipping query) c1)
             (Sample.connReading Sample2.iqResult) Sample.quiet q err d').
Proof.
  apply (a_typed_read_after_Next_decodes_the_following_element
           (Sample.skipping features) (Sample.skipping body) (Sample.skipping query)
           (Sample.connReading Sample2.iqResult) _ Sample.quiet
           [xml.TCharData " "] Sample2.iqStart [xml.TCharData " "]
           Sample2.queryStart
           [xml.TEnd (xml.mkName "" "query"); xml.TEnd (xml.mkName "" "iq")]
           eq_refl eq_refl);
    repeat constructor.
Defined.

(** X13. On a stream that ends before another start element comes, a
    typed read never reaches the unmarshaller: Features, Body and Query
    return their zero value, whatever the unmarshaller would do, and the
    error the stream ended with goes the way of the error channel. *)
Theorem typed_reads_at_the_end_of_the_stream
    (Uf : Unmarshaler features) (Ub : Unmarshaler body) (Uq : Unmarshaler query)
    c d w :
  incoming c = Some d -> noStart (decPending d) ->
  let ended := mkDecoder (decSource d) [] (decErr d) in
  viaChannel (Features c) c w zeroFeatures (Some (decErr d)) ended
  /\ viaChannel (Body c) c w "" (Some (decErr d)) ended
  /\ viaChannel (Query c) c w zeroQuery (Some (decErr d)) ended.
Proof.
  intros Hd Hnone ended.
  assert (forall T (U : Unmarshaler T) (v : T),
             DecodeElement v d = ((v, Some (decErr d)), ended)) as Hdec.
  { intros T U v. unfold DecodeElement.
    rewrite <- (app_nil_r (decPending d)).
    rewrite decodeFrom_skips by assumption. reflexivity. }
  repeat split.
  - unfold Features. rewrite Hd, Hdec. apply report_viaChannel.
  - unfold Body. rewrite Hd, Hdec.
    apply (report_viaChannel c w "" (Some (decErr d)) ended).
  - unfold Query. rewrite Hd, Hdec. apply report_viaChannel.
Qed.

Lemma typed_reads_at_the_end_of_the_stream_witness :
  @Features (Sample.skipping features)
    (Sample.connReading [xml.TCharData " "; xml.TEnd (xml.mkName "" "stream")])
    Sample.quiet = Blocks onNilChannel Sample.quiet
  /\ @Body (Sample.skipping body)
       (Sample.connReading [xml.TCharData " "; xml.TEnd (xml.mkName "" "stream")])
       Sample.quiet = Blocks onNilChannel Sample.quiet
  /\ @Query (Sample.skipping query)
       (Sample.connReading [xml.TCharData " "; xml.TEnd (xml.mkName "" "stream")])
       Sample.quiet = Blocks onNilChannel Sample.quiet.
Proof.
  apply (typed_reads_at_the_end_of_the_stream
           (Sample.skipping features) (Sample.skipping body) (Sample.skipping query)
           (Sample.connReading
              [xml.TCharData " "; xml.TEnd (xml.mkName "" "stream")])
           _ Sample.quiet eq_refl).
  repeat constructor.
Defined.

End Reading.

(** ** More on ToMap *)

Module MoreMaps.
Import xml xmpp Expect Maps.

Lemma lastValue_some (k v : string) (attr : list Attr) :
  lastValue k attr = Some v -> exists a, a ∈ attr /\ local a = k /\ Value a = v.
Proof.
  induction attr as [|a rest IH]; simpl; [discriminate|].
  destruct (lastValue k rest) as [v'|] eqn:Hr.
  - intros [= ->]. destruct (IH eq_refl) as (b & Hb & Hk & Hv).
    exists b. split; [now right | auto].
  - case_bool_decide as Hk; [|discriminate].
    intros [= <-]. exists a. split; [left | auto].
Qed.

(** X14. Looking up a name in the map.  A local name that no attribute
    has is not in the map; a local name that some attribute has is; and a
    value found in the map is the value of an attribute of that local
    name: ToMap makes nothing up.  The map of no attributes is empty. *)
Theorem ToMap_lookup_of_a_name (attr : list Attr) (k : string) :
  (ToMap attr !! k = None <-> forall a, a ∈ attr -> local a <> k)
  /\ (is_Some (ToMap attr !! k) <-> exists a, a ∈ attr /\ local a = k)
  /\ (forall v, ToMap attr !! k = Some v ->
                exists a, a ∈ attr /\ local a = k /\ Value a = v)
  /\ ToMap [] = ∅.
Proof.
  rewrite ToMap_lookup. split; [apply lastValue_none|].
  split; [|split; [intros v; apply lastValue_some | reflexivity]].
  split.
  - intros [v Hv]. destruct (lastValue_some k v attr Hv) as (a & Ha & Hk & _).
    eauto.
  - intros (a & Ha & Hk).
    destruct (lastValue k attr) as [v|] eqn:Hl; [eauto|].
    exfalso. exact (proj1 (lastValue_none k attr) Hl a Ha Hk).
Qed.

Lemma ToMap_by_pairs (attr : list Attr) (m : gmap string string) :
  foldl (fun m a => <[Local (AttrName a) := Value a]> m) m attr
  = foldl (fun m p => <[p.1 := p.2]> m) m (keyValue <$> attr).
Proof.
  revert m. induction attr as [|a rest IH]; intros m; simpl; [reflexivity|].
  apply IH.
Qed.

(** X15. ToMap looks at the local name and the value of an attribute
    and at nothing else: two attribute lists that agree on those, place by
    place, give the same map, whatever their name spaces.  So attributes
    that differ in the name space only fall on the same key. *)
Theorem ToMap_ignores_the_name_space (attr attr' : list Attr) :
  keyValue <$> attr = keyValue <$> attr' -> ToMap attr = ToMap attr'.
Proof.
  intros H. unfold ToMap. now rewrite !ToMap_by_pairs, H.
Qed.

Lemma ToMap_ignores_the_name_space_witness :
  ToMap Sample2.prefixed
  = ToMap [attr "lang" "en"; mkAttr (mkName "any" "lang") "fr"]
  /\ ToMap Sample2.prefixed !! "lang" = Some "fr"
  /\ size (ToMap Sample2.prefixed) = 1.
Proof.
  split; [apply (ToMap_ignores_the_name_space Sample2.prefixed); reflexivity|].
  split; [rewrite ToMap_lookup; reflexivity | reflexivity].
Defined.

Lemma lastValue_app (k : string) (l1 l2 : list Attr) :
  lastValue k (l1 ++ l2)
  = match lastValue k l2 with
    | Some v => Some v
    | None => lastValue k l1
    end.
Proof.
  induction l1 as [|a l1 IH]; simpl.
  - now destruct (lastValue k l2).
  - rewrite IH. now destruct (lastValue k l2).
Qed.

(** X16. The map of two attribute lists one after the other is the map
    of the second list laid over the map of the first: where both have a
    name the second wins. *)
Theorem ToMap_of_an_append (l1 l2 : list Attr) :
  ToMap (l1 ++ l2) = ToMap l2 ∪ ToMap l1.
Proof.
  apply map_eq. intros k.
  rewrite lookup_union, !ToMap_lookup, lastValue_app.
  destruct (lastValue k l2), (lastValue k l1); reflexivity.
Qed.

Lemma ToMap_snoc (l : list Attr) (a : Attr) :
  ToMap (l ++ [a]) = <[local a := Value a]> (ToMap l).
Proof. unfold ToMap. now rewrite foldl_app. Qed.

(** X17. The map never has more entries than there are attributes, and
    it has as many exactly when no local name occurs twice. *)
Theorem ToMap_size (attr : list Attr) :
  size (ToMap attr) <= length attr
  /\ (size (ToMap attr) = length attr <-> NoDup (local <$> attr)).
Proof.
  induction attr as [|a l [IHle IHeq]] using rev_ind.
  - split; [reflexivity|]. split; [constructor | reflexivity].
  - rewrite ToMap_snoc, length_app, fmap_app. simpl.
    destruct (ToMap l !! local a) as [v|] eqn:Hl.
    + rewrite map_size_insert_Some by eauto. split; [lia|].
      split; [lia|]. intros Hnd. exfalso.
      apply NoDup_app in Hnd as (_ & Hdisj & _).
      rewrite ToMap_lookup in Hl.
      destruct (lastValue_some _ _ _ Hl) as (b & Hb & Hk & _).
      apply (Hdisj (local a)); [|left].
      rewrite <- Hk. now apply list_elem_of_fmap_2.
    + rewrite map_size_insert_None by assumption. split; [lia|].
      split.
      * intros Hsz. apply NoDup_app. split; [apply IHeq; lia|].
        split; [|apply NoDup_singleton].
        intros x Hx Hx'. apply list_elem_of_singleton in Hx' as ->.
        apply list_elem_of_fmap in Hx as (b & Hk & Hb).
        rewrite ToMap_lookup in Hl.
        exact (proj1 (lastValue_none _ _) Hl b Hb (eq_sym Hk)).
      * intros Hnd. apply NoDup_app in Hnd as (Hnd & _ & _).
        apply IHeq in Hnd. lia.
Qed.

End MoreMaps.
